(** * Intraday live-market-data synchronisation: a shallow embedding

    The development follows the units of the dashboard that keep the intraday
    series current:

    - [computeTodayWindow] / [useTodayWindow]  (session window calculator),
    - [useLiveTicks], [toWsUrl]                 (live tick stream client),
    - [useTodayLiveSeries]                      (backfill-and-merge coordinator),
    - [safePost], the chart's one-day view and [computeRangeDates]
      (what the coordinator calls and what consumes its series).

    Definitions come first, module by module; the facts follow.

    JavaScript numbers that are only carried around (prices) are IEEE doubles
    ([float]); time values, lengths and clock readings are integers ([Z], [nat]).
    Platform built-ins (Date, Intl, JSON.parse, Array.prototype.sort,
    WebSocket, string methods) are modelled next to the code that calls
    them. *)

From Stdlib Require Import ZArith List String Ascii Bool Lia Floats.
From Stdlib Require Import Permutation Sorted.
From Stdlib Require Import Numbers.DecimalString.
Import ListNotations.

Set Warnings "-notation-for-abbreviation".

Open Scope Z_scope.

(* ================================================================== *)
(** * Generic helpers *)

(** [Zrange a n] is [a; a+1; ...; a+n-1]; used to check a decidable property on
    a whole interval by evaluation. *)
Fixpoint Zrange (a : Z) (n : nat) : list Z :=
  match n with
  | O => []
  | S k => a :: Zrange (a + 1) k
  end.

Lemma Zrange_In (n : nat) : forall a x, a <= x < a + Z.of_nat n -> In x (Zrange a n).
Proof.
  induction n as [|k IH]; intros a x Hx.
  - lia.
  - simpl. destruct (Z.eq_dec a x) as [->|Hne]; [now left|right].
    apply IH. lia.
Qed.

Lemma Zrange_forallb (f : Z -> bool) (a : Z) (n : nat) :
  forallb f (Zrange a n) = true ->
  forall x, a <= x < a + Z.of_nat n -> f x = true.
Proof.
  intros H x Hx. rewrite forallb_forall in H. apply H, Zrange_In, Hx.
Qed.

Lemma Zrange_forallbZ (f : Z -> bool) (a n : Z) :
  forallb f (Zrange a (Z.to_nat n)) = true ->
  forall x, a <= x < a + n -> f x = true.
Proof.
  intros H x Hx. apply (Zrange_forallb f a (Z.to_nat n) H).
  rewrite Z2Nat.id; lia.
Qed.

(* ================================================================== *)
(** * JavaScript strings and integers as text *)

Module JSString.

Local Open Scope string_scope.
Local Open Scope Z_scope.

(** The decimal digit character of [n] (meaningful for [0 <= n <= 9]). *)
Definition digit (n : Z) : ascii := ascii_of_nat (48 + Z.to_nat n).

(** The value of a decimal digit character. *)
Definition digit_val (c : ascii) : option Z :=
  let k := Z.of_nat (nat_of_ascii c) in
  if (48 <=? k) && (k <=? 57) then Some (k - 48) else None.

(** [String(n)] for an integral number [n] (decimal notation, a leading minus
    sign for negative values). *)
Definition String_of_int (n : Z) : string := NilZero.string_of_int (Z.to_int n).

Fixpoint repeat_char (c : ascii) (n : nat) : string :=
  match n with
  | O => ""
  | S k => String c (repeat_char c k)
  end.

(** [s.padStart(targetLength, c)] for a one-character filler. *)
Definition padStart (s : string) (targetLength : nat) (c : ascii) : string :=
  repeat_char c (targetLength - String.length s) ++ s.

(** [s.replace(pat, repl)] with a string pattern: the first occurrence of [pat]
    is replaced, the rest of the string is kept.  (The replacement text used by
    the code contains no [$] pattern.) *)
Fixpoint replace (pat repl s : string) : string :=
  if String.prefix pat s
  then repl ++ substring (String.length pat) (String.length s - String.length pat) s
  else match s with
       | "" => ""
       | String c s' => String c (replace pat repl s')
       end.

(** Fixed-width decimal fields, as the date formats print them. *)
Definition digits2 (n : Z) : string :=
  String (digit (n / 10)) (String (digit (n mod 10)) "").

Definition digits3 (n : Z) : string :=
  String (digit (n / 100)) (digits2 (n mod 100)).

Definition digits4 (n : Z) : string :=
  String (digit (n / 1000)) (digits3 (n mod 1000)).

Definition digits6 (n : Z) : string :=
  String (digit (n / 100000)) (String (digit (n / 10000 mod 10)) (digits4 (n mod 10000))).

(** Reading [w] decimal digits off the front of a string. *)
Fixpoint read_digits (w : nat) (acc : Z) (s : string) : option (Z * string) :=
  match w with
  | O => Some (acc, s)
  | S k =>
      match s with
      | "" => None
      | String c s' =>
          match digit_val c with
          | Some v => read_digits k (10 * acc + v) s'
          | None => None
          end
      end
  end.

(** Reading one expected character. *)
Definition read_char (c : ascii) (s : string) : option string :=
  match s with
  | String c' s' => if Ascii.eqb c c' then Some s' else None
  | "" => None
  end.

End JSString.

(* ================================================================== *)
(** * The Date built-in: time values, calendar fields, ISO strings *)

Module JSDate.

Import JSString.
Local Open Scope string_scope.
Local Open Scope Z_scope.

Definition msPerDay : Z := 86400000.
Definition msPerHour : Z := 3600000.
Definition msPerMinute : Z := 60000.
Definition msPerSecond : Z := 1000.

(** ECMAScript's [Day(t)] and [TimeWithinDay(t)] (floor division). *)
Definition Day (t : Z) : Z := t / msPerDay.
Definition TimeWithinDay (t : Z) : Z := t mod msPerDay.

Definition HourFromTime (t : Z) : Z := (t / msPerHour) mod 24.
Definition MinFromTime (t : Z) : Z := (t / msPerMinute) mod 60.
Definition SecFromTime (t : Z) : Z := (t / msPerSecond) mod 60.
Definition msFromTime (t : Z) : Z := t mod msPerSecond.

(** ECMAScript's [DayFromYear(y)]: the day number of 1 January of year [y]. *)
Definition DayFromYear (y : Z) : Z :=
  365 * (y - 1970) + (y - 1969) / 4 - (y - 1901) / 100 + (y - 1601) / 400.

Definition InLeapYear (y : Z) : bool :=
  (y mod 4 =? 0) && (negb (y mod 100 =? 0) || (y mod 400 =? 0)).

(** Days before the first day of month [mn] (0-based) in a common year. *)
Definition monthStart (mn : Z) : Z :=
  match mn with
  | 0 => 0 | 1 => 31 | 2 => 59 | 3 => 90 | 4 => 120 | 5 => 151
  | 6 => 181 | 7 => 212 | 8 => 243 | 9 => 273 | 10 => 304 | _ => 334
  end.

Definition DaysInMonth (y mn : Z) : Z :=
  match mn with
  | 1 => if InLeapYear y then 29 else 28
  | 3 | 5 | 8 | 10 => 30
  | _ => 31
  end.

(** ECMAScript's [MakeDay(year, month, date)] with a 0-based month. *)
Definition MakeDay (year month date : Z) : Z :=
  let ym := year + month / 12 in
  let mn := month mod 12 in
  DayFromYear ym + monthStart mn
  + (if InLeapYear ym && (2 <=? mn) then 1 else 0)
  + date - 1.

Definition MakeTime (hour min sec ms : Z) : Z :=
  hour * msPerHour + min * msPerMinute + sec * msPerSecond + ms.

Definition MakeDate (day time : Z) : Z := day * msPerDay + time.

(** [Date.UTC(year, month, date, hours, minutes, seconds)]; a year in 0..99
    stands for 1900 + year.  Time values stay far inside the range that
    [TimeClip] accepts (8.64e15 ms), so the clip is the identity here. *)
Definition Date_UTC (year month date hours minutes seconds : Z) : Z :=
  let yr := if (0 <=? year) && (year <=? 99) then 1900 + year else year in
  MakeDate (MakeDay yr month date) (MakeTime hours minutes seconds 0).

(** ECMAScript's [YearFromTime], on day numbers: the year [y] with
    [DayFromYear y <= day < DayFromYear (y + 1)].  The estimate from the mean
    year length is off by at most one. *)
Definition YearFromDay (day : Z) : Z :=
  let y0 := 1970 + (day * 400) / 146097 in
  if DayFromYear (y0 + 1) <=? day then y0 + 1
  else if day <? DayFromYear y0 then y0 - 1
  else y0.

(** ECMAScript's [MonthFromTime] (0-based), from the day within the year. *)
Definition MonthFromDayInYear (leap : bool) (dy : Z) : Z :=
  let L := if leap then 1 else 0 in
  if dy <? 31 then 0
  else if dy <? 59 + L then 1
  else if dy <? 90 + L then 2
  else if dy <? 120 + L then 3
  else if dy <? 151 + L then 4
  else if dy <? 181 + L then 5
  else if dy <? 212 + L then 6
  else if dy <? 243 + L then 7
  else if dy <? 273 + L then 8
  else if dy <? 304 + L then 9
  else if dy <? 334 + L then 10
  else 11.

(** The extra day that months after February start with in a leap year. *)
Definition leapAdjust (leap : bool) (mn : Z) : Z :=
  if leap && (2 <=? mn) then 1 else 0.

(** Calendar fields (year, month 1..12, day of month) of a day number, in the
    proleptic Gregorian calendar: [YearFromTime], [MonthFromTime] + 1 and
    [DateFromTime]. *)
Definition civil_from_days (z : Z) : Z * Z * Z :=
  let y := YearFromDay z in
  let dy := z - DayFromYear y in
  let leap := InLeapYear y in
  let mn := MonthFromDayInYear leap dy in
  let d := dy - monthStart mn - leapAdjust leap mn + 1 in
  (y, mn + 1, d).

(** The year field of [toISOString]: four digits for 0..9999, otherwise a sign
    and six digits. *)
Definition isoYear (y : Z) : string :=
  if (0 <=? y) && (y <=? 9999) then digits4 y
  else String (if y <? 0 then "-"%char else "+"%char) (digits6 (Z.abs y)).

(** [new Date(t).toISOString()]: [YYYY-MM-DDTHH:mm:ss.sssZ]. *)
Definition toISOString (t : Z) : string :=
  let '(y, m, d) := civil_from_days (Day t) in
  (isoYear y ++ "-" ++ digits2 m ++ "-" ++ digits2 d ++ "T"
   ++ digits2 (HourFromTime t) ++ ":" ++ digits2 (MinFromTime t) ++ ":"
   ++ digits2 (SecFromTime t) ++ "." ++ digits3 (msFromTime t) ++ "Z").

(** The UTC offset suffix of a date-time string: [Z] or [+HH:mm] / [-HH:mm];
    the result is the offset in milliseconds. *)
Definition read_offset (s : string) : option Z :=
  match s with
  | String "Z" "" => Some 0
  | String sg rest =>
      if Ascii.eqb sg "+" || Ascii.eqb sg "-" then
        match read_digits 2 0 rest with
        | Some (hh, rest1) =>
            match read_char ":" rest1 with
            | Some rest2 =>
                match read_digits 2 0 rest2 with
                | Some (mm, "") =>
                    if (hh <? 24) && (mm <? 60) then
                      let off := hh * msPerHour + mm * msPerMinute in
                      Some (if Ascii.eqb sg "-" then - off else off)
                    else None
                | _ => None
                end
            | None => None
            end
        | None => None
        end
      else None
  | _ => None
  end.

(** The instant denoted by a complete date-time string
    [YYYY-MM-DDTHH:mm:ss.sss] followed by [Z] or a numeric UTC offset, in
    milliseconds since the epoch; [None] for any other text. *)
Definition instantOf (s : string) : option Z :=
  match read_digits 4 0 s with
  | Some (y, s1) =>
  match read_char "-" s1 with
  | Some s2 =>
  match read_digits 2 0 s2 with
  | Some (m, s3) =>
  match read_char "-" s3 with
  | Some s4 =>
  match read_digits 2 0 s4 with
  | Some (d, s5) =>
  match read_char "T" s5 with
  | Some s6 =>
  match read_digits 2 0 s6 with
  | Some (hh, s7) =>
  match read_char ":" s7 with
  | Some s8 =>
  match read_digits 2 0 s8 with
  | Some (mi, s9) =>
  match read_char ":" s9 with
  | Some s10 =>
  match read_digits 2 0 s10 with
  | Some (ss, s11) =>
  match read_char "." s11 with
  | Some s12 =>
  match read_digits 3 0 s12 with
  | Some (ms, s13) =>
  match read_offset s13 with
  | Some off =>
      if (1 <=? m) && (m <=? 12) && (1 <=? d) && (d <=? DaysInMonth y (m - 1))
         && (hh <? 24) && (mi <? 60) && (ss <? 60)
      then Some (MakeDate (MakeDay y (m - 1) d) (MakeTime hh mi ss ms) - off)
      else None
  | None => None end
  | None => None end
  | None => None end
  | None => None end
  | None => None end
  | None => None end
  | None => None end
  | None => None end
  | None => None end
  | None => None end
  | None => None end
  | None => None end
  | None => None end
  | None => None end.

End JSDate.

(* ================================================================== *)
(** * JavaScript values, as [JSON.parse] and API responses produce them *)

Module JS.

Import JSString.
Local Open Scope string_scope.

#[warnings="-register-all"]
Inductive JSValue : Type :=
| JUndefined
| JNull
| JBool (b : bool)
| JNumber (x : float)
| JString (s : string)
| JArray (elems : list JSValue)
| JObject (props : list (string * JSValue)).

(** ToBoolean: what [!v], [v || w] and [if (v)] test. *)
Definition truthy (v : JSValue) : bool :=
  match v with
  | JUndefined | JNull => false
  | JBool b => b
  | JNumber x => negb (PrimFloat.is_zero x || PrimFloat.is_nan x)
  | JString s => negb (String.eqb s "")
  | JArray _ | JObject _ => true
  end.

Fixpoint lookup (k : string) (props : list (string * JSValue)) : JSValue :=
  match props with
  | [] => JUndefined
  | (k', v) :: rest => if String.eqb k k' then v else lookup k rest
  end.

(** [v.k] for the property names the hooks read ([type], [ticks],
    [received_at], [last_price], [error]): an own property of a plain object,
    [undefined] on every other non-nullish value.  ([v] is never [null] or
    [undefined] where the code reads a property.) *)
Definition getProp (v : JSValue) (k : string) : JSValue :=
  match v with
  | JObject props => lookup k props
  | _ => JUndefined
  end.

Fixpoint join (sep : string) (l : list string) : string :=
  match l with
  | [] => ""
  | [s] => s
  | s :: rest => s ++ sep ++ join sep rest
  end.

Section Conversions.

(** The two text/number conversions of the language that work on doubles:
    StringToNumber (the numeric reading of a string, NaN when it has none) and
    Number::toString. *)
Variable StringToNumber : string -> float.
Variable NumberToString : float -> string.

(** ToString; an array prints its elements joined by commas, with [null] and
    [undefined] elements printed as the empty string. *)
Fixpoint ToString (v : JSValue) : string :=
  match v with
  | JUndefined => "undefined"
  | JNull => "null"
  | JBool true => "true"
  | JBool false => "false"
  | JNumber x => NumberToString x
  | JString s => s
  | JArray elems =>
      join ","
        (map (fun e => match e with
                       | JUndefined | JNull => ""
                       | _ => ToString e
                       end) elems)
  | JObject _ => "[object Object]"
  end.

(** ToNumber, i.e. [Number(v)]; arrays and objects go through their string
    form.  (A parsed object whose own [toString] and [valueOf] are both
    present makes [Number] throw instead; the handler then ends without
    emitting, as it does for the NaN given here.) *)
Definition ToNumber (v : JSValue) : float :=
  match v with
  | JUndefined => PrimFloat.nan
  | JNull => PrimFloat.zero
  | JBool true => PrimFloat.one
  | JBool false => PrimFloat.zero
  | JNumber x => x
  | JString s => StringToNumber s
  | JArray _ => StringToNumber (ToString v)
  | JObject _ => PrimFloat.nan
  end.

End Conversions.

End JS.

(* ================================================================== *)
(** * Bars *)

(** [OHLCVBar] of [types/api]; [volume] is optional ([null] on live bars). *)
Record OHLCVBar : Type := mkBar {
  timestamp : string;
  open : float;
  high : float;
  low : float;
  close : float;
  volume : option float
}.

(* ================================================================== *)
(** * Session window calculator: [computeTodayWindow], [useTodayWindow] *)

Module Window.

Import JSString JSDate.
Local Open Scope string_scope.
Local Open Scope Z_scope.

Record TodayWindow : Type := mkWindow {
  fromOffset : string;
  toOffset : string;
  fetchFromZ : string;
  fetchToZ : string;
  key : string
}.

(** IST is fixed at UTC+05:30 (no daylight saving; the zone has kept this
    offset since 1945, so for every time value from the epoch on). *)
Definition IST_OFFSET_MS : Z := 19800000.

(** [Intl.DateTimeFormat('en-CA', {timeZone: 'Asia/Kolkata', year: 'numeric',
    month: '2-digit', day: '2-digit'}).formatToParts(new Date(t))], read back
    with [Number(...)]: the year, month (1..12) and day of the IST calendar
    date of the time value [t]. *)
Definition formatToParts_Kolkata (t : Z) : Z * Z * Z :=
  civil_from_days (Day (t + IST_OFFSET_MS)).

(** [computeTodayWindow()].  The function reads the clock twice: [now] is the
    [new Date()] handed to [formatToParts], [now'] the later [new Date()] that
    becomes [toDate]. *)
Definition computeTodayWindow (now now' : Z) : TodayWindow :=
  let '(y, m, d) := formatToParts_Kolkata now in
  let openUtcMs := Date_UTC y (m - 1) d 3 45 0 in
  let fromDate := openUtcMs in
  let toDate := now' in
  let fromOffset := replace "Z" "+00:00" (toISOString fromDate) in
  let toOffset := replace "Z" "+00:00" (toISOString toDate) in
  let fetchFromZ := toISOString fromDate in
  let fetchToZ := toISOString toDate in
  let key := String_of_int y ++ "-" ++ padStart (String_of_int m) 2 "0"
             ++ "-" ++ padStart (String_of_int d) 2 "0" in
  mkWindow fromOffset toOffset fetchFromZ fetchToZ key.

(** [useTodayWindow(enabled)]: the published window after the effect ran with
    the given flag (at clock readings [now], [now']) and after each firing of
    the 30 s interval timer. *)
Definition useTodayWindow_effect (enabled : bool) (now now' : Z) : option TodayWindow :=
  if negb enabled then None else Some (computeTodayWindow now now').

Definition useTodayWindow_interval (now now' : Z) : option TodayWindow :=
  Some (computeTodayWindow now now').

(** The instants that the serialized bounds denote. *)
Definition startInstant (w : TodayWindow) : option Z := instantOf (fetchFromZ w).
Definition endInstant (w : TodayWindow) : option Z := instantOf (fetchToZ w).
Definition startInstantOffset (w : TodayWindow) : option Z := instantOf (fromOffset w).
Definition endInstantOffset (w : TodayWindow) : option Z := instantOf (toOffset w).

(** The IST calendar day number (days since 1970-01-01 IST) of a time value,
    and 09:15 IST of that day as a UTC time value. *)
Definition istDay (t : Z) : Z := Day (t + IST_OFFSET_MS).
Definition sessionOpenUtc (istday : Z) : Z :=
  istday * msPerDay + (9 * msPerHour + 15 * msPerMinute) - IST_OFFSET_MS.

(** A date printed as [YYYY-MM-DD]. *)
Definition formatYMD (y m d : Z) : string :=
  digits4 y ++ "-" ++ digits2 m ++ "-" ++ digits2 d.

(** Wall-clock readings the theorems cover: from the epoch up to the last
    millisecond of IST year 9999. *)
Definition T_MAX : Z := 253402300800000 - IST_OFFSET_MS.
Definition clock_ok (t : Z) : Prop := 0 <= t < T_MAX.

End Window.

(* ================================================================== *)
(** * Live tick stream client: [useLiveTicks] *)

Module LiveTicks.

Import JSString JSDate JS.
Local Open Scope string_scope.
Local Open Scope Z_scope.

Definition MAX_POINTS : Z := 30000.

(** The hook's mutable state: the [points] state variable and the
    [lastEmitMsRef] ref. *)
Record LiveState : Type := mkLive {
  points : list OHLCVBar;
  lastEmitMs : Z
}.

(** One delivery to [ws.onmessage]: the outcome of
    [JSON.parse(String(evt.data))] ([None] when it throws), the clock reading
    [Date.now()] of the throttle check and the reading of the [new Date()] used
    when the message carries no [received_at]. *)
Record MessageEvent : Type := mkEvent {
  parsed : option JSValue;
  nowMs : Z;
  dateNow : Z
}.

(** State on (re)connect: the series is reset and the throttle ref zeroed. *)
Definition connect : LiveState := mkLive [] 0.

(** The updater passed to [setPoints]. *)
Definition appendPoint (prev : list OHLCVBar) (bar : OHLCVBar) : list OHLCVBar :=
  let next := (prev ++ [bar])%list in
  if MAX_POINTS <? Z.of_nat (List.length next)
  then skipn (Z.to_nat (Z.of_nat (List.length next) - MAX_POINTS)) next
  else next.

Section Handler.

Variable StringToNumber : string -> float.
Variable NumberToString : float -> string.

(** The validation prefix of the handler: the parsed message and the price
    [lp] when the message passes every check, [None] when the handler returns
    early. *)
Definition validate (ev : MessageEvent) : option (JSValue * float) :=
  match parsed ev with
  | None => None
  | Some msg =>
      if negb (truthy msg) then None
      else match getProp msg "type" with
           | JString "ticks" =>
               let ticks := match getProp msg "ticks" with
                            | JArray l => l
                            | _ => []
                            end in
               match ticks with
               | [] => None
               | t0 :: _ =>
                   let tick := if truthy t0 then t0 else JObject [] in
                   let lpRaw := getProp tick "last_price" in
                   let lp := match lpRaw with
                             | JNumber x => x
                             | _ => ToNumber StringToNumber NumberToString lpRaw
                             end in
                   if negb (PrimFloat.is_finite lp) then None else Some (msg, lp)
               end
           | _ => None
           end
  end.

(** The bar synthesized for an accepted message. *)
Definition makeBar (msg : JSValue) (lp : float) (dateNow : Z) : OHLCVBar :=
  let tsIso := match getProp msg "received_at" with
               | JString s => s
               | _ => toISOString dateNow
               end in
  mkBar tsIso lp lp lp lp None.

(** The bar a delivery emits when the throttle ref holds [last], if any. *)
Definition emits (last : Z) (ev : MessageEvent) : option OHLCVBar :=
  match validate ev with
  | None => None
  | Some (msg, lp) =>
      if nowMs ev - last <? 1000 then None
      else Some (makeBar msg lp (dateNow ev))
  end.

(** [ws.onmessage]. *)
Definition onmessage (st : LiveState) (ev : MessageEvent) : LiveState :=
  match emits (lastEmitMs st) ev with
  | None => st
  | Some bar => mkLive (appendPoint (points st) bar) (nowMs ev)
  end.

(** Handling a sequence of deliveries in arrival order. *)
Definition run (st : LiveState) (evs : list MessageEvent) : LiveState :=
  fold_left onmessage evs st.

(** The bars emitted while handling a sequence, in acceptance order. *)
Fixpoint emitted (last : Z) (evs : list MessageEvent) : list OHLCVBar :=
  match evs with
  | [] => []
  | ev :: rest =>
      match emits last ev with
      | None => emitted last rest
      | Some bar => bar :: emitted (nowMs ev) rest
      end
  end.

End Handler.

End LiveTicks.

(* ================================================================== *)
(** * Backfill-and-merge coordinator: [useTodayLiveSeries] *)

Module Coordinator.

Import JSString JSDate JS Window.
Local Open Scope string_scope.
Local Open Scope Z_scope.

(** The value of [lastBackfillRef.current] when it is not [null]. *)
Record Marker : Type := mkMarker {
  marker_symbol : string;
  marker_key : string;
  atMs : Z
}.

(** The [shouldRun] expression of the backfill effect. *)
Definition shouldRun (last : option Marker) (symbol : string) (w : TodayWindow)
    (nowMs : Z) : bool :=
  match last with
  | None => true
  | Some l =>
      negb (String.eqb (marker_symbol l) symbol)
      || negb (String.eqb (marker_key l) (key w))
      || (60000 <? nowMs - atMs l)
  end.

(** The payload of one [marketDataApi.fetch] call, with the window key of the
    render that issued it. *)
Record Request : Type := mkRequest {
  req_symbol : string;
  req_key : string;
  req_interval : string;
  from_date : string;
  to_date : string
}.

(** How an awaited fetch ends: the promise resolves with a response value or
    rejects with an error. *)
Inductive Outcome : Type :=
| Resolved (resp : JSValue)
| Rejected (e : JSValue).

(** The arguments of the current render. *)
Record Props : Type := mkProps {
  symbol : string;
  enabled : bool;
  window : option TodayWindow
}.

(** The coordinator instance: the [backfillError] state, the
    [lastBackfillRef] ref, the arguments of the latest render, the fetches in
    flight and the number of [refetchBase()] calls made so far. *)
Record Coord : Type := mkCoord {
  backfillError : JSValue;
  lastBackfillRef : option Marker;
  current : Props;
  inflight : list Request;
  refetchBaseCalls : nat
}.

Definition init (p : Props) : Coord := mkCoord JNull None p [] 0.

(** The synchronous part of the backfill effect, run for a render with
    arguments [p] at clock reading [nowMs]. *)
Definition effect (p : Props) (nowMs : Z) (st : Coord) : Coord :=
  match window p with
  | Some w =>
      if negb (enabled p) || String.eqb (symbol p) ""
      then mkCoord JNull (lastBackfillRef st) p (inflight st) (refetchBaseCalls st)
      else if negb (shouldRun (lastBackfillRef st) (symbol p) w nowMs)
      then mkCoord (backfillError st) (lastBackfillRef st) p (inflight st)
             (refetchBaseCalls st)
      else mkCoord (backfillError st)
             (Some (mkMarker (symbol p) (key w) nowMs)) p
             (inflight st
              ++ [mkRequest (symbol p) (key w) "5minute" (fetchFromZ w) (fetchToZ w)])%list
             (refetchBaseCalls st)
  | None => mkCoord JNull (lastBackfillRef st) p (inflight st) (refetchBaseCalls st)
  end.

(** The error that the continuation after [await marketDataApi.fetch(...)]
    passes to [setBackfillError]. *)
Definition errorOf (o : Outcome) : JSValue :=
  match o with
  | Resolved resp =>
      let err := match resp with
                 | JUndefined | JNull => JUndefined
                 | _ => getProp resp "error"
                 end in
      if truthy err then err else JNull
  | Rejected e => e
  end.

Fixpoint remove_nth {A : Type} (n : nat) (l : list A) : list A :=
  match n, l with
  | _, [] => []
  | O, _ :: rest => rest
  | S k, x :: rest => x :: remove_nth k rest
  end.

(** The continuation of the [n]-th fetch in flight, run when its promise
    settles: [setBackfillError(...)] and then [refetchBase()]. *)
Definition settle (n : nat) (o : Outcome) (st : Coord) : Coord :=
  match nth_error (inflight st) n with
  | None => st
  | Some _ =>
      mkCoord (errorOf o) (lastBackfillRef st) (current st)
        (remove_nth n (inflight st)) (S (refetchBaseCalls st))
  end.

(** A fetch in flight is stale when the symbol or the window key of the
    current render differs from the ones captured when it was issued. *)
Definition stale (r : Request) (st : Coord) : Prop :=
  req_symbol r <> symbol (current st)
  \/ (match window (current st) with
      | Some w => req_key r <> key w
      | None => True
      end).

Section Merge.

(** [new Date(s).getTime()]: the time value of a timestamp string, [None] for
    NaN (a string the engine cannot read as a date). *)
Variable getTime : string -> option Z.

(** The comparator handed to [sort]; [None] stands for a NaN result. *)
Definition compareFn (a b : OHLCVBar) : option Z :=
  match getTime (timestamp a), getTime (timestamp b) with
  | Some x, Some y => Some (x - y)
  | _, _ => None
  end.

(** [a] must come after [b]: the comparator's result is positive (a NaN
    result counts as zero). *)
Definition after (a b : OHLCVBar) : bool :=
  match compareFn a b with
  | Some v => 0 <? v
  | None => false
  end.

(** [Array.prototype.sort] is stable; for a consistent comparator (every
    timestamp read as a date) its result is the one of any stable sort,
    written here as insertion from the right.  When the comparator returns NaN
    for some pair the order an engine produces is implementation-defined and
    need not be the one of [sort]; the facts about the order of the merged
    series are stated for readable timestamps. *)
Fixpoint insert (x : OHLCVBar) (l : list OHLCVBar) : list OHLCVBar :=
  match l with
  | [] => [x]
  | y :: rest => if after x y then y :: insert x rest else x :: l
  end.

Fixpoint sort (l : list OHLCVBar) : list OHLCVBar :=
  match l with
  | [] => []
  | x :: rest => insert x (sort rest)
  end.

(** The [data] memo: the merged series. *)
Definition data (enabled : bool) (baseSeries : option (list OHLCVBar))
    (livePoints : list OHLCVBar) : list OHLCVBar :=
  let base := match baseSeries with
              | Some l => l
              | None => []
              end in
  if negb enabled then base
  else if (List.length livePoints =? 0)%nat then base
  else sort (base ++ livePoints)%list.

End Merge.

End Coordinator.

(* ================================================================== *)
(** * The rest of the live tick stream client: URL, connection life cycle *)

(** More string built-ins.  A character is a code unit below 256 (Latin-1);
    the hooks' inputs (API base URL, ticker symbols) are ASCII. *)
Module JSText.

Local Open Scope string_scope.

(** WhiteSpace and LineTerminator code units below 256: TAB, LF, VT, FF, CR,
    SP and NBSP. *)
Definition isWhiteSpace (c : ascii) : bool :=
  let n := nat_of_ascii c in
  ((9 <=? n) && (n <=? 13) || (n =? 32) || (n =? 160))%nat.

Fixpoint trimStart (s : string) : string :=
  match s with
  | "" => ""
  | String c s' => if isWhiteSpace c then trimStart s' else s
  end.

Fixpoint trimEnd (s : string) : string :=
  match s with
  | "" => ""
  | String c s' =>
      match trimEnd s' with
      | "" => if isWhiteSpace c then "" else String c ""
      | t => String c t
      end
  end.

(** [s.trim()]. *)
Definition trim (s : string) : string := trimEnd (trimStart s).

(** [s.startsWith(p)]. *)
Definition startsWith (s p : string) : bool := String.prefix p s.

(** [s.slice(n)] for [0 <= n]. *)
Fixpoint slice (n : nat) (s : string) : string :=
  match n, s with
  | O, _ => s
  | S k, String _ s' => slice k s'
  | S _, "" => ""
  end.

(** [s.replace(/\/$/, '')]: one slash at the very end of the text is dropped. *)
Fixpoint dropTrailingSlash (s : string) : string :=
  match s with
  | "" => ""
  | String c "" => if Ascii.eqb c "/" then "" else s
  | String c s' => String c (dropTrailingSlash s')
  end.

(** [s.toUpperCase()] on ASCII text: the letters a..z are raised, every other
    ASCII character is kept. *)
Definition upperChar (c : ascii) : ascii :=
  let n := nat_of_ascii c in
  if ((97 <=? n) && (n <=? 122))%nat then ascii_of_nat (n - 32) else c.

Fixpoint toUpperCase (s : string) : string :=
  match s with
  | "" => ""
  | String c s' => String (upperChar c) (toUpperCase s')
  end.

Definition hexDigit (n : nat) : ascii :=
  if (n <? 10)%nat then ascii_of_nat (48 + n) else ascii_of_nat (55 + n).

(** [%XX] for one byte. *)
Definition percentByte (b : nat) : string :=
  String "%" (String (hexDigit (b / 16)) (String (hexDigit (b mod 16)) "")).

(** The characters [encodeURIComponent] leaves alone: letters, digits and
    [- _ . ! ~ * ' ( )]. *)
Definition isUnreserved (c : ascii) : bool :=
  let n := nat_of_ascii c in
  ((65 <=? n) && (n <=? 90) || (97 <=? n) && (n <=? 122) || (48 <=? n) && (n <=? 57)
   || (n =? 45) || (n =? 95) || (n =? 46) || (n =? 33) || (n =? 126) || (n =? 42)
   || (n =? 39) || (n =? 40) || (n =? 41))%nat.

(** [encodeURIComponent(s)]: every other character is replaced by the
    percent-escapes of its UTF-8 bytes (one byte below 128, two from 128 to
    255). *)
Fixpoint encodeURIComponent (s : string) : string :=
  match s with
  | "" => ""
  | String c s' =>
      let n := nat_of_ascii c in
      (if isUnreserved c then String c ""
       else if (n <? 128)%nat then percentByte n
       else percentByte (192 + n / 64) ++ percentByte (128 + n mod 64))
      ++ encodeURIComponent s'
  end.

End JSText.

Module LiveSocket.

Import JSString JSDate JS JSText LiveTicks.
Local Open Scope string_scope.

(** [toWsUrl(apiBase, pathWithQuery)]. *)
Definition toWsUrl (apiBase pathWithQuery : string) : string :=
  let trimmed := dropTrailingSlash (trim apiBase) in
  if startsWith trimmed "https://" then "wss://" ++ slice 8 trimmed ++ pathWithQuery
  else if startsWith trimmed "http://" then "ws://" ++ slice 7 trimmed ++ pathWithQuery
  else if startsWith trimmed "wss://" || startsWith trimmed "ws://"
       then trimmed ++ pathWithQuery
  else "ws://" ++ trimmed ++ pathWithQuery.

(** [WebSocket.readyState]. *)
Inductive ReadyState : Type := CONNECTING | OPEN | CLOSING | CLOSED.

(** The hook instance together with every socket it has created: the
    [points] state and [lastEmitMsRef] ([live]), [wsRef] (an index into
    [sockets], or [None] for [null]), the URL and ready state of each socket,
    and whether the last run of the effect returned a cleanup function. *)
Record Hook : Type := mkHook {
  live : LiveState;
  wsRef : option nat;
  sockets : list (string * ReadyState);
  hasCleanup : bool
}.

Definition mounted : Hook := mkHook (mkLive [] 0) None [] false.

Definition readyStateOf (h : Hook) (i : nat) : option ReadyState :=
  option_map snd (nth_error (sockets h) i).

Fixpoint setState (i : nat) (r : ReadyState) (l : list (string * ReadyState))
  : list (string * ReadyState) :=
  match i, l with
  | _, [] => []
  | O, (u, _) :: rest => (u, r) :: rest
  | S k, x :: rest => x :: setState k r rest
  end.

(** [ws.close()] on a socket that is open or connecting. *)
Definition closeSocket (i : nat) (h : Hook) : Hook :=
  mkHook (live h) (wsRef h) (setState i CLOSING (sockets h)) (hasCleanup h).

(** The [cleanup] closure of the effect. *)
Definition cleanup (h : Hook) : Hook :=
  let h' := mkHook (live h) None (sockets h) (hasCleanup h) in
  match wsRef h with
  | Some i =>
      match readyStateOf h i with
      | Some OPEN | Some CONNECTING => closeSocket i h'
      | _ => h'
      end
  | None => h'
  end.

Definition setPoints (pts : list OHLCVBar) (h : Hook) : Hook :=
  mkHook (mkLive pts (lastEmitMs (live h))) (wsRef h) (sockets h) (hasCleanup h).

(** The path and query of the tick stream for a (trimmed, upper-cased)
    symbol. *)
Definition ticksPath (sym : string) : string :=
  "/market-data/ws/ticks?symbols=" ++ encodeURIComponent sym ++ "&mode=ltp".

(** The body of the effect, for the arguments of the current render. *)
Definition effectBody (API_BASE symbol : string) (enabled : bool) (h : Hook) : Hook :=
  if negb enabled then
    let h1 := setPoints [] (cleanup h) in
    mkHook (live h1) (wsRef h1) (sockets h1) false
  else
    let sym := toUpperCase (trim symbol) in
    if String.eqb sym "" then
      let h1 := setPoints [] (cleanup h) in
      mkHook (live h1) (wsRef h1) (sockets h1) false
    else
      mkHook (mkLive [] 0)
        (Some (List.length (sockets h)))
        (sockets h ++ [(toWsUrl API_BASE (ticksPath sym), CONNECTING)])%list
        true.

(** The function the effect returns when it has opened a socket. *)
Definition effectCleanup (h : Hook) : Hook :=
  let h1 := setPoints [] (cleanup h) in
  mkHook (live h1) (wsRef h1) (sockets h1) false.

(** A render with changed [symbol] or [enabled]: the previous cleanup
    function runs first, if there is one, then the effect body. *)
Definition rerender (API_BASE symbol : string) (enabled : bool) (h : Hook) : Hook :=
  effectBody API_BASE symbol enabled (if hasCleanup h then effectCleanup h else h).

(** The owning view is torn down. *)
Definition unmount (h : Hook) : Hook :=
  if hasCleanup h then effectCleanup h else h.

Section Transport.

Variable StringToNumber : string -> float.
Variable NumberToString : float -> string.

(** What happens to the hook: renders and teardown on the UI side; on the
    transport side a socket opens, closes (also on failure: [onerror] and
    [onclose] do nothing), or delivers a message, which the browser hands to
    [onmessage] only while the socket is open. *)
Inductive Event : Type :=
| Render (API_BASE symbol : string) (enabled : bool)
| Unmount
| SocketOpened (i : nat)
| SocketClosed (i : nat)
| Message (i : nat) (ev : MessageEvent).

Definition step (h : Hook) (e : Event) : Hook :=
  match e with
  | Render base symbol enabled => rerender base symbol enabled h
  | Unmount => unmount h
  | SocketOpened i =>
      match readyStateOf h i with
      | Some CONNECTING =>
          mkHook (live h) (wsRef h) (setState i OPEN (sockets h)) (hasCleanup h)
      | _ => h
      end
  | SocketClosed i =>
      mkHook (live h) (wsRef h) (setState i CLOSED (sockets h)) (hasCleanup h)
  | Message i ev =>
      match readyStateOf h i with
      | Some OPEN =>
          mkHook (onmessage StringToNumber NumberToString (live h) ev)
            (wsRef h) (sockets h) (hasCleanup h)
      | _ => h
      end
  end.

Definition steps (h : Hook) (es : list Event) : Hook := fold_left step es h.

End Transport.

End LiveSocket.

(* ================================================================== *)
(** * The request helper behind [marketDataApi.fetch] *)

Module ApiClient.

Import JS.
Local Open Scope string_scope.

(** How the underlying [api.post] call ends: with a response carrying
    [res.data], or by throwing [e]. *)
Inductive AxiosOutcome : Type :=
| AxiosResponse (data : JSValue)
| AxiosThrow (e : JSValue).

(** [v?.k]. *)
Definition optProp (v : JSValue) (k : string) : JSValue :=
  match v with
  | JUndefined | JNull => JUndefined
  | _ => getProp v k
  end.

(** [a || b]. *)
Definition orElse (a b : JSValue) : JSValue := if truthy a then a else b.

(** The value [safePost] resolves with; it never rejects. *)
Definition safePost (o : AxiosOutcome) : JSValue :=
  match o with
  | AxiosResponse data => JObject [("data", data); ("error", JNull)]
  | AxiosThrow e =>
      JObject [("data", JNull);
               ("error", orElse (optProp (optProp e "response") "data")
                           (orElse (optProp e "message") (JString "Request failed")))]
  end.

End ApiClient.

Module CoordinatorRuns.

Import JS Window Coordinator ApiClient.

(** What happens to a coordinator instance: the backfill effect runs for a
    render at some clock reading, or a fetch in flight settles. *)
Inductive CoordEvent : Type :=
| Effect (p : Props) (nowMs : Z)
| Settle (n : nat) (o : Outcome).

Definition stepC (st : Coord) (e : CoordEvent) : Coord :=
  match e with
  | Effect p nowMs => effect p nowMs st
  | Settle n o => settle n o st
  end.

Definition runC (st : Coord) (es : list CoordEvent) : Coord := fold_left stepC es st.

(** The outcome of awaiting [marketDataApi.fetch(...)], which is
    [safePost('/market-data/fetch', payload)]. *)
Definition fetchOutcome (o : AxiosOutcome) : Outcome := Resolved (safePost o).

End CoordinatorRuns.

(* ================================================================== *)
(** * Consumers of the series: the chart's one-day view, the query range *)

Module PriceChart.

Import JSString JSDate Window.
Local Open Scope string_scope.
Local Open Scope Z_scope.

(** A point of [chartDataAll]: [time] is [new Date(d.timestamp).getTime()]
    ([None] for NaN) and [close] the bar's close. *)
Record ChartPoint : Type := mkPoint {
  time : option Z;
  pointClose : float
}.

(** [new Date(t).toLocaleDateString('en-CA', { timeZone: 'Asia/Kolkata' })]:
    the IST calendar date as [YYYY-MM-DD], or the text [Invalid Date]. *)
Definition toLocaleDateString_Kolkata (t : option Z) : string :=
  match t with
  | None => "Invalid Date"
  | Some t =>
      let '(y, m, d) := formatToParts_Kolkata t in
      String_of_int y ++ "-" ++ padStart (String_of_int m) 2 "0"
      ++ "-" ++ padStart (String_of_int d) 2 "0"
  end.

Section Chart.

Variable getTime : string -> option Z.

(** [chartDataAll]. *)
Definition chartDataAll (data : option (list OHLCVBar)) : list ChartPoint :=
  map (fun d => mkPoint (getTime (timestamp d)) (close d))
    (match data with
     | Some l => l
     | None => []
     end).

End Chart.

(** [l.slice(-1)]. *)
Definition sliceLast {A : Type} (l : list A) : list A :=
  skipn (List.length l - 1) l.

(** The [chartData] memo for the range ['1d']. *)
Definition chartData_1d (all : list ChartPoint) : list ChartPoint :=
  match nth_error all (List.length all - 1) with
  | None => all
  | Some lastPt =>
      let lastDay := toLocaleDateString_Kolkata (time lastPt) in
      let dayData :=
        filter (fun pt => String.eqb (toLocaleDateString_Kolkata (time pt)) lastDay) all in
      if (List.length dayData =? 0)%nat then sliceLast all else dayData
  end.

End PriceChart.

Module RangeDates.

Import JSString JSDate.
Local Open Scope string_scope.
Local Open Scope Z_scope.

(** [RangeKey] of the price chart. *)
Inductive RangeKey : Type :=
| R5y | R3y | R2y | R1y | R5m | R3m | R1m | R2w | R1w | R1d.

(** [daysMap[r] || 90] (every entry of the map is a positive number, so the
    fallback is never taken). *)
Definition daysFor (r : RangeKey) : Z :=
  match r with
  | R5y => 365 * 5
  | R3y => 365 * 3
  | R2y => 365 * 2
  | R1y => 365
  | R5m => 30 * 5
  | R3m => 30 * 3
  | R1m => 30
  | R2w => 14
  | R1w => 7
  | R1d => 14
  end.

(** [d.getUTCDate()]. *)
Definition getUTCDate (t : Z) : Z :=
  let '(_, _, d) := civil_from_days (Day t) in d.

(** [d.setUTCDate(dt)]: the time value the date object holds afterwards. *)
Definition setUTCDate (t dt : Z) : Z :=
  let '(y, m, _) := civil_from_days (Day t) in
  MakeDate (MakeDay y (m - 1) dt) (TimeWithinDay t).

(** [s.slice(0, 10)]. *)
Definition slice_0_10 (s : string) : string := substring 0 10 s.

(** [computeRangeDates(r)], given the fields of [today] in the viewer's
    local time zone: [getFullYear()], [getMonth()] (0-based) and
    [getDate()].  The result is the pair [(from, to)]. *)
Definition computeRangeDates (fullYear month date : Z) (r : RangeKey) : string * string :=
  let to := Date_UTC fullYear month date 0 0 0 in
  let days := daysFor r in
  let from := setUTCDate to (getUTCDate to - days) in
  let toStr := slice_0_10 (toISOString to) in
  let fromStr := slice_0_10 (toISOString from) in
  (fromStr, toStr).

End RangeDates.

(* ================================================================== *)
(** * Facts about the Date model and the session window *)

(** Division and remainder by constants are handed to [lia] as their
    Euclidean equations. *)
Ltac Zify.zify_post_hook ::= Z.div_mod_to_equations.

Module WindowFacts.

Import JSString JSDate Window.

Lemma DayFromYear_succ (y : Z) :
  DayFromYear (y + 1) = DayFromYear y + 365 + (if InLeapYear y then 1 else 0).
Proof.
  unfold DayFromYear, InLeapYear.
  destruct (Z.eqb_spec (y mod 4) 0), (Z.eqb_spec (y mod 100) 0), (Z.eqb_spec (y mod 400) 0);
    cbn [andb orb negb]; lia.
Qed.

Lemma YearFromDay_spec (day : Z) :
  DayFromYear (YearFromDay day) <= day < DayFromYear (YearFromDay day + 1).
Proof.
  unfold YearFromDay. cbv zeta.
  set (y0 := 1970 + day * 400 / 146097).
  assert (H1 : DayFromYear (y0 - 1) <= day) by (subst y0; unfold DayFromYear; lia).
  assert (H2 : day < DayFromYear (y0 + 2)) by (subst y0; unfold DayFromYear; lia).
  clearbody y0.
  destruct (Z.leb_spec (DayFromYear (y0 + 1)) day) as [A|A].
  - replace (y0 + 1 + 1) with (y0 + 2) by lia. lia.
  - destruct (Z.ltb_spec day (DayFromYear y0)) as [B|B].
    + replace (y0 - 1 + 1) with y0 by lia. lia.
    + lia.
Qed.

Lemma MonthFromDayInYear_spec (y dy : Z) :
  0 <= dy < 365 + (if InLeapYear y then 1 else 0) ->
  let mn := MonthFromDayInYear (InLeapYear y) dy in
  0 <= mn <= 11
  /\ 1 <= dy - monthStart mn - leapAdjust (InLeapYear y) mn + 1 <= DaysInMonth y mn.
Proof.
  intros H. cbv zeta. unfold MonthFromDayInYear, DaysInMonth, leapAdjust.
  destruct (InLeapYear y); cbv zeta;
    repeat match goal with
           | |- context [?a <? ?b] => destruct (Z.ltb_spec a b); [cbn; lia|]
           end; cbn; lia.
Qed.

(** The calendar fields of a day number name that day: [MakeDay] maps them
    back, and they are a valid month and day of month. *)
Lemma civil_from_days_spec (z y m d : Z) :
  civil_from_days z = (y, m, d) ->
  MakeDay y (m - 1) d = z /\ 1 <= m <= 12 /\ 1 <= d <= DaysInMonth y (m - 1).
Proof.
  unfold civil_from_days. cbv zeta. intros E.
  pose proof (YearFromDay_spec z) as Hy. rewrite DayFromYear_succ in Hy.
  injection E as Ey Em Ed. rewrite Ey in *. clear Ey.
  pose proof (MonthFromDayInYear_spec y (z - DayFromYear y) ltac:(lia)) as (Hm & Hd).
  set (mn := MonthFromDayInYear (InLeapYear y) (z - DayFromYear y)) in *.
  clearbody mn. subst m d.
  replace (mn + 1 - 1) with mn by lia.
  split; [|split; [lia|exact Hd]].
  unfold MakeDay. replace (mn / 12) with 0 by lia. replace (mn mod 12) with mn by lia.
  replace (y + 0) with y by lia. fold (leapAdjust (InLeapYear y) mn). lia.
Qed.

Lemma DayFromYear_mono (a b : Z) : a <= b -> DayFromYear a <= DayFromYear b.
Proof. unfold DayFromYear. lia. Qed.

Lemma MakeDay_year_bounds (y m d : Z) :
  1 <= m <= 12 -> 1 <= d <= DaysInMonth y (m - 1) ->
  DayFromYear y <= MakeDay y (m - 1) d < DayFromYear (y + 1).
Proof.
  intros Hm Hd. rewrite DayFromYear_succ. unfold MakeDay.
  replace ((m - 1) / 12) with 0 by lia.
  replace ((m - 1) mod 12) with (m - 1) by lia.
  replace (y + 0) with y by lia.
  unfold DaysInMonth in Hd.
  pose proof (Zrange_In 12 1 m ltac:(lia)) as Hc. cbn in Hc.
  destruct (InLeapYear y);
    repeat (destruct Hc as [<-|Hc]; [cbn in *; lia|]); contradiction.
Qed.

Lemma civil_year_range (z y m d : Z) :
  civil_from_days z = (y, m, d) ->
  0 <= z < 2932897 -> 1970 <= y <= 9999.
Proof.
  intros E Hz. apply civil_from_days_spec in E. destruct E as (E & Hm & Hd).
  pose proof (MakeDay_year_bounds y m d Hm Hd) as Hb. rewrite E in Hb.
  split.
  - destruct (Z_lt_le_dec y 1970) as [Hlt|]; [|assumption].
    pose proof (DayFromYear_mono (y + 1) 1970 ltac:(lia)) as Hmono.
    change (DayFromYear 1970) with 0 in Hmono. lia.
  - destruct (Z_lt_le_dec 9999 y) as [Hlt|]; [|assumption].
    pose proof (DayFromYear_mono 10000 y ltac:(lia)) as Hmono.
    change (DayFromYear 10000) with 2932897 in Hmono. lia.
Qed.

Lemma digit_val_digit (n : Z) : 0 <= n <= 9 -> digit_val (digit n) = Some n.
Proof.
  intros H.
  pose proof (Zrange_forallbZ
                (fun k => match digit_val (digit k) with
                          | Some v => v =? k
                          | None => false
                          end) 0 10 eq_refl n ltac:(lia)) as E.
  cbv beta in E. destruct (digit_val (digit n)) as [v|]; [|discriminate].
  apply Z.eqb_eq in E. now subst.
Qed.

Lemma read_digits_S (k : nat) (acc : Z) (c : ascii) (s : string) :
  read_digits (S k) acc (String c s) =
  match digit_val c with
  | Some v => read_digits k (10 * acc + v) s
  | None => None
  end.
Proof. reflexivity. Qed.

Lemma append_String (c : ascii) (s rest : string) :
  (String c s ++ rest = String c (s ++ rest))%string.
Proof. reflexivity. Qed.

Lemma read_digits2 (n acc : Z) (rest : string) :
  0 <= n < 100 ->
  read_digits 2 acc (digits2 n ++ rest) = Some (100 * acc + n, rest).
Proof.
  intros H. unfold digits2. rewrite !append_String.
  rewrite read_digits_S, (digit_val_digit (n / 10)) by lia.
  rewrite read_digits_S, (digit_val_digit (n mod 10)) by lia.
  cbn [read_digits append]. f_equal. f_equal. lia.
Qed.

Lemma read_digits3 (n acc : Z) (rest : string) :
  0 <= n < 1000 ->
  read_digits 3 acc (digits3 n ++ rest) = Some (1000 * acc + n, rest).
Proof.
  intros H. unfold digits3. rewrite append_String.
  rewrite read_digits_S, (digit_val_digit (n / 100)) by lia.
  rewrite read_digits2 by lia. f_equal. f_equal. lia.
Qed.

Lemma read_digits4 (n acc : Z) (rest : string) :
  0 <= n < 10000 ->
  read_digits 4 acc (digits4 n ++ rest) = Some (10000 * acc + n, rest).
Proof.
  intros H. unfold digits4. rewrite append_String.
  rewrite read_digits_S, (digit_val_digit (n / 1000)) by lia.
  rewrite read_digits3 by lia. f_equal. f_equal. lia.
Qed.

Lemma append_assoc (a b c : string) : ((a ++ b) ++ c = a ++ (b ++ c))%string.
Proof. induction a; simpl; congruence. Qed.

(** The text of [toISOString] before the final zone designator. *)
Definition isoBody (y m d t : Z) : string :=
  (digits4 y ++ "-" ++ digits2 m ++ "-" ++ digits2 d ++ "T"
   ++ digits2 (HourFromTime t) ++ ":" ++ digits2 (MinFromTime t) ++ ":"
   ++ digits2 (SecFromTime t) ++ "." ++ digits3 (msFromTime t))%string.

Lemma toISOString_fields (t y m d : Z) :
  civil_from_days (Day t) = (y, m, d) -> 0 <= y <= 9999 ->
  toISOString t = (isoBody y m d t ++ "Z")%string.
Proof.
  intros E Hy. unfold toISOString. rewrite E. unfold isoYear.
  replace ((0 <=? y) && (y <=? 9999)) with true by (symmetry; apply andb_true_iff; lia).
  unfold isoBody. rewrite !append_assoc. reflexivity.
Qed.

Lemma time_fields_bounds (t : Z) :
  0 <= HourFromTime t < 24 /\ 0 <= MinFromTime t < 60 /\ 0 <= SecFromTime t < 60
  /\ 0 <= msFromTime t < 1000.
Proof. unfold HourFromTime, MinFromTime, SecFromTime, msFromTime, msPerHour, msPerMinute, msPerSecond. lia. Qed.

Lemma MakeTime_fields (t : Z) :
  MakeTime (HourFromTime t) (MinFromTime t) (SecFromTime t) (msFromTime t) = t mod msPerDay.
Proof.
  unfold MakeTime, HourFromTime, MinFromTime, SecFromTime, msFromTime, msPerHour, msPerMinute, msPerSecond, msPerDay. lia.
Qed.

Lemma instantOf_body (y m d t off : Z) (suffix : string) :
  0 <= y <= 9999 -> 1 <= m <= 12 -> 1 <= d <= DaysInMonth y (m - 1) ->
  read_offset suffix = Some off ->
  instantOf (isoBody y m d t ++ suffix) =
  Some (MakeDate (MakeDay y (m - 1) d) (t mod msPerDay) - off).
Proof.
  intros Hy Hm Hd Hoff.
  pose proof (time_fields_bounds t) as (Hh & Hmi & Hs & Hms).
  assert (Hd' : 1 <= d <= 31).
  { unfold DaysInMonth in Hd. destruct (m - 1); try lia;
      repeat (destruct p; try lia); destruct (InLeapYear y); lia. }
  unfold instantOf, isoBody. rewrite !append_assoc.
  rewrite read_digits4 by lia. cbn [append read_char Ascii.eqb Bool.eqb].
  rewrite read_digits2 by lia. cbn [append read_char Ascii.eqb Bool.eqb].
  rewrite read_digits2 by lia. cbn [append read_char Ascii.eqb Bool.eqb].
  rewrite read_digits2 by lia. cbn [append read_char Ascii.eqb Bool.eqb].
  rewrite read_digits2 by lia. cbn [append read_char Ascii.eqb Bool.eqb].
  rewrite read_digits2 by lia. cbn [append read_char Ascii.eqb Bool.eqb].
  rewrite read_digits3 by lia. rewrite Hoff.
  replace (10000 * 0 + y) with y by lia.
  replace (100 * 0 + m) with m by lia.
  replace (100 * 0 + d) with d by lia.
  replace (100 * 0 + HourFromTime t) with (HourFromTime t) by lia.
  replace (100 * 0 + MinFromTime t) with (MinFromTime t) by lia.
  replace (100 * 0 + SecFromTime t) with (SecFromTime t) by lia.
  replace (1000 * 0 + msFromTime t) with (msFromTime t) by lia.
  rewrite MakeTime_fields.
  replace (_ && _ && _ && _ && _ && _ && _) with true; [reflexivity|].
  symmetry. rewrite !andb_true_iff, !Z.leb_le, !Z.ltb_lt. lia.
Qed.

Fixpoint has_char (c : ascii) (s : string) : bool :=
  match s with
  | EmptyString => false
  | String c' s' => Ascii.eqb c c' || has_char c s'
  end.

Lemma has_char_app (c : ascii) (a b : string) :
  has_char c (a ++ b) = has_char c a || has_char c b.
Proof. induction a as [|x a IH]; simpl; [reflexivity|]. rewrite IH. apply orb_assoc. Qed.

Lemma append_empty_r (s : string) : (s ++ "")%string = s.
Proof. induction s; simpl; congruence. Qed.

Lemma replace_char_end (c : ascii) (body repl : string) :
  has_char c body = false ->
  replace (String c "") repl (body ++ String c "") = (body ++ repl)%string.
Proof.
  induction body as [|x body IH]; intros H.
  - simpl. destruct (ascii_dec c c) as [_|N]; [|congruence].
    simpl. apply append_empty_r.
  - simpl in H. apply orb_false_iff in H. destruct H as [Hx Hb].
    cbn [append replace prefix].
    destruct (ascii_dec c x) as [->|N].
    + rewrite Ascii.eqb_refl in Hx. discriminate.
    + rewrite IH by assumption. reflexivity.
Qed.

Lemma digit_not_Z (n : Z) : 0 <= n <= 9 -> Ascii.eqb "Z" (digit n) = false.
Proof.
  intros H.
  apply negb_true_iff.
  exact (Zrange_forallbZ (fun k => negb (Ascii.eqb "Z" (digit k))) 0 10 eq_refl n
           ltac:(lia)).
Qed.

Lemma digits2_no_Z (n : Z) : 0 <= n < 100 -> has_char "Z" (digits2 n) = false.
Proof.
  intros H. unfold digits2. cbn [has_char].
  rewrite !digit_not_Z by lia. reflexivity.
Qed.

Lemma digits3_no_Z (n : Z) : 0 <= n < 1000 -> has_char "Z" (digits3 n) = false.
Proof.
  intros H. unfold digits3. cbn [has_char].
  rewrite digit_not_Z, digits2_no_Z by lia. reflexivity.
Qed.

Lemma digits4_no_Z (n : Z) : 0 <= n < 10000 -> has_char "Z" (digits4 n) = false.
Proof.
  intros H. unfold digits4. cbn [has_char].
  rewrite digit_not_Z, digits3_no_Z by lia. reflexivity.
Qed.

Lemma isoBody_no_Z (y m d t : Z) :
  0 <= y <= 9999 -> 0 <= m < 100 -> 0 <= d < 100 ->
  has_char "Z" (isoBody y m d t) = false.
Proof.
  intros Hy Hm Hd.
  pose proof (time_fields_bounds t) as (Hh & Hmi & Hs & Hms).
  unfold isoBody. rewrite !has_char_app.
  rewrite digits4_no_Z, !digits2_no_Z, digits3_no_Z by lia. reflexivity.
Qed.

Lemma DaysInMonth_le_31 (y mn : Z) : DaysInMonth y mn <= 31.
Proof.
  unfold DaysInMonth. destruct mn as [|p|p]; try lia.
  repeat (destruct p as [p|p|]; try lia); destruct (InLeapYear y); lia.
Qed.

(** The UTC time values whose year has four digits. *)
Definition utc_ok (t : Z) : Prop := 0 <= t < 253402300800000.

Lemma civil_of_time (t : Z) :
  utc_ok t ->
  exists y m d,
    civil_from_days (Day t) = (y, m, d)
    /\ MakeDay y (m - 1) d = Day t
    /\ 1970 <= y <= 9999 /\ 1 <= m <= 12 /\ 1 <= d <= DaysInMonth y (m - 1).
Proof.
  intros Ht. destruct (civil_from_days (Day t)) as [[y m] d] eqn:E.
  exists y, m, d. pose proof (civil_from_days_spec _ _ _ _ E) as (H1 & H2 & H3).
  pose proof (civil_year_range _ _ _ _ E) as H4.
  repeat split; try tauto; apply H4; unfold Day, msPerDay, utc_ok in *; lia.
Qed.

Lemma instantOf_toISOString (t : Z) : utc_ok t -> instantOf (toISOString t) = Some t.
Proof.
  intros Ht. destruct (civil_of_time t Ht) as (y & m & d & E & HD & Hy & Hm & Hd).
  rewrite (toISOString_fields t y m d E) by lia.
  rewrite (instantOf_body y m d t 0 "Z") by (try lia; reflexivity).
  rewrite HD. f_equal. unfold MakeDate, Day, msPerDay. lia.
Qed.

Lemma instantOf_toISOString_offset (t : Z) :
  utc_ok t -> instantOf (replace "Z" "+00:00" (toISOString t)) = Some t.
Proof.
  intros Ht. destruct (civil_of_time t Ht) as (y & m & d & E & HD & Hy & Hm & Hd).
  pose proof (DaysInMonth_le_31 y (m - 1)) as H31.
  rewrite (toISOString_fields t y m d E) by lia.
  rewrite replace_char_end by (apply isoBody_no_Z; lia).
  rewrite (instantOf_body y m d t 0 "+00:00") by (try lia; reflexivity).
  rewrite HD. f_equal. unfold MakeDate, Day, msPerDay. lia.
Qed.

Lemma String_of_int_4 (y : Z) : 1000 <= y <= 9999 -> String_of_int y = digits4 y.
Proof.
  intros H. apply String.eqb_eq.
  apply (Zrange_forallbZ (fun y => String.eqb (String_of_int y) (digits4 y)) 1000 9000);
    [vm_cast_no_check (eq_refl true) | lia].
Qed.

Lemma padStart_2 (n : Z) : 1 <= n <= 31 -> padStart (String_of_int n) 2 "0" = digits2 n.
Proof.
  intros H. apply String.eqb_eq.
  apply (Zrange_forallbZ (fun n => String.eqb (padStart (String_of_int n) 2 "0") (digits2 n)) 1 31);
    [vm_cast_no_check (eq_refl true) | lia].
Qed.

(** Reading a [YYYY-MM-DD] text back. *)
Definition parseYMD (s : string) : option (Z * Z * Z) :=
  match read_digits 4 0 s with
  | Some (y, s1) =>
      match read_char "-" s1 with
      | Some s2 =>
          match read_digits 2 0 s2 with
          | Some (m, s3) =>
              match read_char "-" s3 with
              | Some s4 =>
                  match read_digits 2 0 s4 with
                  | Some (d, _) => Some (y, m, d)
                  | None => None
                  end
              | None => None
              end
          | None => None
          end
      | None => None
      end
  | None => None
  end.

Lemma parseYMD_formatYMD (y m d : Z) :
  0 <= y <= 9999 -> 0 <= m < 100 -> 0 <= d < 100 ->
  parseYMD (formatYMD y m d) = Some (y, m, d).
Proof.
  intros Hy Hm Hd. unfold parseYMD, formatYMD.
  rewrite read_digits4 by lia. cbn [append read_char Ascii.eqb Bool.eqb].
  rewrite read_digits2 by lia. cbn [append read_char Ascii.eqb Bool.eqb].
  rewrite <- (append_empty_r (digits2 d)).
  rewrite read_digits2 by lia. repeat f_equal; lia.
Qed.

Lemma istDay_range (t : Z) : clock_ok t -> 0 <= istDay t < 2932897.
Proof. unfold clock_ok, T_MAX, istDay, Day, IST_OFFSET_MS, msPerDay. lia. Qed.

Lemma sessionOpenUtc_eq (D : Z) : sessionOpenUtc D = D * msPerDay + 13500000.
Proof. unfold sessionOpenUtc, msPerHour, msPerMinute, IST_OFFSET_MS. lia. Qed.

Lemma sessionOpenUtc_ok (D : Z) : 0 <= D < 2932897 -> utc_ok (sessionOpenUtc D).
Proof. rewrite sessionOpenUtc_eq. unfold utc_ok, msPerDay. lia. Qed.

Lemma clock_ok_utc (t : Z) : clock_ok t -> utc_ok t.
Proof. unfold clock_ok, utc_ok, T_MAX, IST_OFFSET_MS. lia. Qed.

(** What [computeTodayWindow] returns, in terms of the IST calendar date of
    the first clock reading. *)
Lemma computeTodayWindow_fields (now now' y m d : Z) :
  clock_ok now ->
  civil_from_days (istDay now) = (y, m, d) ->
  computeTodayWindow now now' =
  mkWindow (replace "Z" "+00:00" (toISOString (sessionOpenUtc (istDay now))))
           (replace "Z" "+00:00" (toISOString now'))
           (toISOString (sessionOpenUtc (istDay now)))
           (toISOString now')
           (formatYMD y m d).
Proof.
  intros Hnow E.
  pose proof (istDay_range now Hnow) as HD.
  pose proof (civil_from_days_spec _ _ _ _ E) as (H1 & H2 & H3).
  pose proof (civil_year_range _ _ _ _ E HD) as H4.
  pose proof (DaysInMonth_le_31 y (m - 1)) as H31.
  unfold computeTodayWindow, formatToParts_Kolkata. fold (istDay now). rewrite E.
  assert (EU : Date_UTC y (m - 1) d 3 45 0 = sessionOpenUtc (istDay now)).
  { unfold Date_UTC.
    replace ((0 <=? y) && (y <=? 99)) with false
      by (symmetry; apply andb_false_iff; right; apply Z.leb_gt; lia).
    rewrite H1, sessionOpenUtc_eq. unfold MakeDate, MakeTime, msPerHour, msPerMinute, msPerSecond. lia. }
  rewrite EU. rewrite String_of_int_4, !padStart_2 by lia. reflexivity.
Qed.

Lemma window_instants (now now' : Z) :
  clock_ok now -> clock_ok now' ->
  let w := computeTodayWindow now now' in
  startInstant w = Some (sessionOpenUtc (istDay now))
  /\ startInstantOffset w = Some (sessionOpenUtc (istDay now))
  /\ endInstant w = Some now'
  /\ endInstantOffset w = Some now'.
Proof.
  intros Hnow Hnow'. cbv zeta.
  destruct (civil_from_days (istDay now)) as [[y m] d] eqn:E.
  rewrite (computeTodayWindow_fields now now' y m d Hnow E).
  pose proof (sessionOpenUtc_ok _ (istDay_range now Hnow)) as Hopen.
  pose proof (clock_ok_utc now' Hnow') as Hutc.
  unfold startInstant, startInstantOffset, endInstant, endInstantOffset.
  cbn [fetchFromZ fetchToZ fromOffset toOffset].
  rewrite !instantOf_toISOString, !instantOf_toISOString_offset by assumption.
  auto.
Qed.

Lemma window_key (now now' : Z) :
  clock_ok now ->
  exists y m d,
    MakeDay y (m - 1) d = istDay now
    /\ 1970 <= y <= 9999 /\ 1 <= m <= 12 /\ 1 <= d <= DaysInMonth y (m - 1)
    /\ key (computeTodayWindow now now') = formatYMD y m d.
Proof.
  intros Hnow.
  destruct (civil_from_days (istDay now)) as [[y m] d] eqn:E.
  exists y, m, d.
  pose proof (civil_from_days_spec _ _ _ _ E) as (H1 & H2 & H3).
  pose proof (civil_year_range _ _ _ _ E (istDay_range now Hnow)) as H4.
  rewrite (computeTodayWindow_fields now now' y m d Hnow E).
  cbn [key]. auto.
Qed.

Lemma window_same_day (a a' b b' : Z) :
  istDay a = istDay b ->
  fromOffset (computeTodayWindow a a') = fromOffset (computeTodayWindow b b')
  /\ fetchFromZ (computeTodayWindow a a') = fetchFromZ (computeTodayWindow b b')
  /\ key (computeTodayWindow a a') = key (computeTodayWindow b b').
Proof.
  intros E. unfold computeTodayWindow, formatToParts_Kolkata.
  fold (istDay a). fold (istDay b). rewrite E.
  destruct (civil_from_days (istDay b)) as [[y m] d]. cbn [fromOffset fetchFromZ key]. auto.
Qed.

Lemma formatYMD_inj (y m d y' m' d' : Z) :
  0 <= y <= 9999 -> 0 <= m < 100 -> 0 <= d < 100 ->
  0 <= y' <= 9999 -> 0 <= m' < 100 -> 0 <= d' < 100 ->
  formatYMD y m d = formatYMD y' m' d' -> (y, m, d) = (y', m', d').
Proof.
  intros Hy Hm Hd Hy' Hm' Hd' E.
  pose proof (parseYMD_formatYMD y m d Hy Hm Hd) as P.
  rewrite E, parseYMD_formatYMD in P by assumption. congruence.
Qed.

Lemma window_key_inj (a a' b b' : Z) :
  clock_ok a -> clock_ok b ->
  key (computeTodayWindow a a') = key (computeTodayWindow b b') ->
  istDay a = istDay b.
Proof.
  intros Ha Hb E.
  destruct (window_key a a' Ha) as (y & m & d & D & Hy & Hm & Hd & K).
  destruct (window_key b b' Hb) as (y' & m' & d' & D' & Hy' & Hm' & Hd' & K').
  pose proof (DaysInMonth_le_31 y (m - 1)).
  pose proof (DaysInMonth_le_31 y' (m' - 1)).
  rewrite K, K' in E. apply formatYMD_inj in E; try lia.
  injection E as -> -> ->. congruence.
Qed.

Local Open Scope string_scope.
Local Open Scope Z_scope.

Lemma formatYMD_prefix (y m d t : Z) (suffix : string) :
  substring 0 10 (isoBody y m d t ++ suffix) = formatYMD y m d.
Proof.
  unfold isoBody, formatYMD, digits4, digits3, digits2. cbn. reflexivity.
Qed.

Lemma offset_form_differs (body : string) :
  (body ++ "+00:00")%string <> (body ++ "Z")%string.
Proof.
  induction body as [|c body IH]; cbn.
  - discriminate.
  - intros E. injection E as E. exact (IH E).
Qed.

(** The strings of the window: [toISOString] gives a body followed by [Z],
    and [replace('Z', '+00:00')] rewrites exactly that final [Z], the body
    holding none. *)
Lemma window_bodies (now now' : Z) :
  clock_ok now -> clock_ok now' ->
  exists bodyFrom bodyTo : string,
    fetchFromZ (computeTodayWindow now now') = bodyFrom ++ "Z"
    /\ fromOffset (computeTodayWindow now now') = bodyFrom ++ "+00:00"
    /\ fetchToZ (computeTodayWindow now now') = bodyTo ++ "Z"
    /\ toOffset (computeTodayWindow now now') = bodyTo ++ "+00:00"
    /\ has_char "Z" bodyFrom = false /\ has_char "Z" bodyTo = false
    /\ key (computeTodayWindow now now') = substring 0 10 (bodyFrom ++ "Z")%string
    /\ key (computeTodayWindow now now')
       = substring 0 10 (bodyFrom ++ "+00:00")%string.
Proof.
  intros Hnow Hnow'.
  destruct (civil_from_days (istDay now)) as [[y m] d] eqn:E.
  rewrite (computeTodayWindow_fields now now' y m d Hnow E).
  cbn [fetchFromZ fromOffset fetchToZ toOffset key].
  pose proof (istDay_range now Hnow) as HD.
  pose proof (sessionOpenUtc_ok _ HD) as Hopen.
  pose proof (clock_ok_utc now' Hnow') as Hutc.
  assert (Day (sessionOpenUtc (istDay now)) = istDay now) as Dopen.
  { rewrite sessionOpenUtc_eq. unfold Day, msPerDay. lia. }
  destruct (civil_of_time _ Hopen) as (y1 & m1 & d1 & E1 & _ & Hy1 & Hm1 & Hd1).
  rewrite Dopen, E in E1. injection E1 as <- <- <-.
  destruct (civil_of_time _ Hutc) as (y2 & m2 & d2 & E2 & _ & Hy2 & Hm2 & Hd2).
  pose proof (DaysInMonth_le_31 y (m - 1)) as B1.
  pose proof (DaysInMonth_le_31 y2 (m2 - 1)) as B2.
  rewrite (toISOString_fields _ y m d) by (rewrite ?Dopen; auto; lia).
  rewrite (toISOString_fields now' y2 m2 d2 E2) by lia.
  assert (Z1 : has_char "Z" (isoBody y m d (sessionOpenUtc (istDay now))) = false)
    by (apply isoBody_no_Z; lia).
  assert (Z2 : has_char "Z" (isoBody y2 m2 d2 now') = false)
    by (apply isoBody_no_Z; lia).
  rewrite !replace_char_end by assumption.
  exists (isoBody y m d (sessionOpenUtc (istDay now))), (isoBody y2 m2 d2 now').
  rewrite !formatYMD_prefix. repeat split; auto.
Qed.

(** C8: the window starts at 09:15 IST of the current IST calendar day, i.e.
    at 03:45 UTC of that date; its key is that date printed as YYYY-MM-DD; each
    bound is produced in two forms, a body followed by the zone suffix [Z] and
    the same body, free of [Z], followed by [+00:00]; and the two forms of a
    bound denote one instant. *)
Theorem window_start_key_serializations (now now' : Z) :
  clock_ok now -> clock_ok now' ->
  let w := computeTodayWindow now now' in
  (exists y m d,
    MakeDay y (m - 1) d = istDay now
    /\ 1 <= m <= 12 /\ 1 <= d <= DaysInMonth y (m - 1)
    /\ key w = formatYMD y m d
    /\ startInstant w = Some (sessionOpenUtc (istDay now))
    /\ sessionOpenUtc (istDay now) = Date_UTC y (m - 1) d 3 45 0
    /\ startInstantOffset w = startInstant w
    /\ endInstant w = Some now'
    /\ endInstantOffset w = endInstant w)
  /\ (exists bodyFrom bodyTo : string,
    fetchFromZ w = bodyFrom ++ "Z" /\ fromOffset w = bodyFrom ++ "+00:00"
    /\ fetchToZ w = bodyTo ++ "Z" /\ toOffset w = bodyTo ++ "+00:00"
    /\ has_char "Z" bodyFrom = false /\ has_char "Z" bodyTo = false
    /\ fromOffset w <> fetchFromZ w /\ toOffset w <> fetchToZ w).
Proof.
  intros Hnow Hnow'. cbv zeta.
  destruct (window_key now now' Hnow) as (y & m & d & D & Hy & Hm & Hd & K).
  destruct (window_instants now now' Hnow Hnow') as (S1 & S2 & E1 & E2).
  split.
  - exists y, m, d. repeat split; try tauto; try lia; try congruence.
    unfold Date_UTC.
    replace ((0 <=? y) && (y <=? 99)) with false
      by (symmetry; apply andb_false_iff; right; apply Z.leb_gt; lia).
    rewrite D, sessionOpenUtc_eq.
    unfold MakeDate, MakeTime, msPerHour, msPerMinute, msPerSecond. lia.
  - destruct (window_bodies now now' Hnow Hnow')
      as (bodyFrom & bodyTo & F1 & F2 & T1 & T2 & Z1 & Z2 & _).
    exists bodyFrom, bodyTo.
    split; [exact F1|]. split; [exact F2|]. split; [exact T1|]. split; [exact T2|].
    split; [exact Z1|]. split; [exact Z2|].
    split.
    + rewrite F1, F2. apply offset_form_differs.
    + rewrite T1, T2. apply offset_form_differs.
Qed.

Lemma window_start_key_serializations_witness :
  let w := computeTodayWindow 1793591400000 1793591400123 in
  (exists y m d,
    MakeDay y (m - 1) d = istDay 1793591400000
    /\ 1 <= m <= 12 /\ 1 <= d <= DaysInMonth y (m - 1)
    /\ key w = formatYMD y m d
    /\ startInstant w = Some (sessionOpenUtc (istDay 1793591400000))
    /\ sessionOpenUtc (istDay 1793591400000) = Date_UTC y (m - 1) d 3 45 0
    /\ startInstantOffset w = startInstant w
    /\ endInstant w = Some 1793591400123
    /\ endInstantOffset w = endInstant w)
  /\ (exists bodyFrom bodyTo : string,
    fetchFromZ w = bodyFrom ++ "Z" /\ fromOffset w = bodyFrom ++ "+00:00"
    /\ fetchToZ w = bodyTo ++ "Z" /\ toOffset w = bodyTo ++ "+00:00"
    /\ has_char "Z" bodyFrom = false /\ has_char "Z" bodyTo = false
    /\ fromOffset w <> fetchFromZ w /\ toOffset w <> fetchToZ w).
Proof.
  apply (window_start_key_serializations 1793591400000 1793591400123);
    unfold clock_ok, T_MAX, IST_OFFSET_MS; lia.
Defined.

(** C7: two invocations whose first clock readings fall on the same IST
    calendar day give the same session-open instant, the same serialized
    start and the same key, and the later one's end instant is not earlier;
    an invocation on a later IST day gives another key and a later start. *)
Theorem window_stability (a a' b b' : Z) :
  clock_ok a -> clock_ok a' -> clock_ok b -> clock_ok b' -> a' <= b' ->
  let wa := computeTodayWindow a a' in
  let wb := computeTodayWindow b b' in
  (istDay a = istDay b ->
     startInstant wa = startInstant wb
     /\ fetchFromZ wa = fetchFromZ wb /\ fromOffset wa = fromOffset wb
     /\ key wa = key wb
     /\ exists ea eb, endInstant wa = Some ea /\ endInstant wb = Some eb /\ ea <= eb)
  /\ (istDay a < istDay b ->
     key wa <> key wb
     /\ exists sa sb, startInstant wa = Some sa /\ startInstant wb = Some sb /\ sa < sb).
Proof.
  intros Ha Ha' Hb Hb' Hle. cbv zeta.
  destruct (window_instants a a' Ha Ha') as (Sa & _ & Ea & _).
  destruct (window_instants b b' Hb Hb') as (Sb & _ & Eb & _).
  split.
  - intros E. destruct (window_same_day a a' b b' E) as (F1 & F2 & F3).
    repeat split; try assumption.
    + rewrite Sa, Sb, E. reflexivity.
    + exists a', b'. auto.
  - intros Hlt. split.
    + intros K. apply window_key_inj in K; try assumption. lia.
    + exists (sessionOpenUtc (istDay a)), (sessionOpenUtc (istDay b)).
      repeat split; try assumption.
      rewrite !sessionOpenUtc_eq. unfold msPerDay. lia.
Qed.

Lemma window_stability_witness :
  let wa := computeTodayWindow 1793591400000 1793591400123 in
  let wb := computeTodayWindow 1793591430000 1793591430007 in
  (istDay 1793591400000 = istDay 1793591430000 ->
     startInstant wa = startInstant wb
     /\ fetchFromZ wa = fetchFromZ wb /\ fromOffset wa = fromOffset wb
     /\ key wa = key wb
     /\ exists ea eb, endInstant wa = Some ea /\ endInstant wb = Some eb /\ ea <= eb)
  /\ (istDay 1793591400000 < istDay 1793591430000 ->
     key wa <> key wb
     /\ exists sa sb, startInstant wa = Some sa /\ startInstant wb = Some sb /\ sa < sb).
Proof.
  apply (window_stability 1793591400000 1793591400123 1793591430000 1793591430007);
    unfold clock_ok, T_MAX, IST_OFFSET_MS; lia.
Defined.

Example window_at_0920_IST :
  computeTodayWindow 1793591400000 1793591400123
  = mkWindow "2026-11-02T03:45:00.000+00:00" "2026-11-02T03:50:00.123+00:00"
             "2026-11-02T03:45:00.000Z" "2026-11-02T03:50:00.123Z" "2026-11-02".
Proof. vm_compute. reflexivity. Qed.

Example window_after_midnight_IST :
  key (computeTodayWindow 1793644200000 1793644200000) = "2026-11-03"%string
  /\ fetchFromZ (computeTodayWindow 1793644200000 1793644200000)
     = "2026-11-03T03:45:00.000Z"%string.
Proof. vm_compute. auto. Qed.

End WindowFacts.

(* ================================================================== *)
(** * Facts about the live tick stream client *)

Module LiveTicksFacts.

Import JSString JSDate JS LiveTicks.

Section Handler.

Variable StringToNumber : string -> float.
Variable NumberToString : float -> string.

Local Notation validate := (validate StringToNumber NumberToString).
Local Notation emits := (emits StringToNumber NumberToString).
Local Notation onmessage := (onmessage StringToNumber NumberToString).
Local Notation run := (run StringToNumber NumberToString).
Local Notation emitted := (emitted StringToNumber NumberToString).

(** ** The buffer cap *)

Lemma appendPoint_spec (prev : list OHLCVBar) (bar : OHLCVBar) :
  appendPoint prev bar =
  skipn (Z.to_nat (Z.of_nat (List.length (prev ++ [bar])) - MAX_POINTS)) (prev ++ [bar]).
Proof.
  unfold appendPoint. cbv zeta.
  destruct (Z.ltb_spec MAX_POINTS (Z.of_nat (List.length (prev ++ [bar])))) as [H|H].
  - reflexivity.
  - replace (Z.to_nat _) with O by lia. reflexivity.
Qed.

(** Keeping the last [MAX_POINTS] entries of a list. *)
Definition lastMax (l : list OHLCVBar) : list OHLCVBar :=
  skipn (Z.to_nat (Z.of_nat (List.length l) - MAX_POINTS)) l.

Lemma lastMax_length (l : list OHLCVBar) :
  Z.of_nat (List.length (lastMax l)) = Z.min (Z.of_nat (List.length l)) MAX_POINTS.
Proof. unfold lastMax. rewrite length_skipn. unfold MAX_POINTS. lia. Qed.

Lemma lastMax_snoc (l : list OHLCVBar) (bar : OHLCVBar) :
  appendPoint (lastMax l) bar = lastMax (l ++ [bar]).
Proof.
  rewrite appendPoint_spec. unfold lastMax.
  rewrite !length_app, length_skipn. cbn [List.length].
  set (n := List.length l).
  destruct (Z_le_gt_dec (Z.of_nat n) MAX_POINTS) as [H|H].
  - replace (Z.to_nat (Z.of_nat n - MAX_POINTS)) with O by lia.
    cbn [skipn]. rewrite Nat.sub_0_r. reflexivity.
  - rewrite skipn_app. rewrite skipn_skipn.
    replace (Z.to_nat (Z.of_nat (n + 1) - MAX_POINTS)) with (S (Z.to_nat (Z.of_nat n - MAX_POINTS)))
      by (unfold MAX_POINTS in *; lia).
    rewrite (skipn_app (S _) l).
    replace (Z.to_nat (Z.of_nat (n - Z.to_nat (Z.of_nat n - MAX_POINTS) + 1) - MAX_POINTS)) with 1%nat
      by (unfold MAX_POINTS in *; lia).
    replace (1 + Z.to_nat (Z.of_nat n - MAX_POINTS))%nat with (S (Z.to_nat (Z.of_nat n - MAX_POINTS))) by lia.
    f_equal.
    rewrite length_skipn. fold n.
    replace (1 - (n - Z.to_nat (Z.of_nat n - MAX_POINTS)))%nat with O by (unfold MAX_POINTS in *; lia).
    replace (S (Z.to_nat (Z.of_nat n - MAX_POINTS)) - n)%nat with O by (unfold MAX_POINTS in *; lia).
    reflexivity.
Qed.

Lemma run_cons (st : LiveState) (ev : MessageEvent) (evs : list MessageEvent) :
  run st (ev :: evs) = run (onmessage st ev) evs.
Proof. reflexivity. Qed.

Lemma run_app (st : LiveState) (evs1 evs2 : list MessageEvent) :
  run st (evs1 ++ evs2) = run (run st evs1) evs2.
Proof. unfold LiveTicks.run. apply fold_left_app. Qed.

(** The buffer after a run is the last [MAX_POINTS] of everything emitted. *)
Lemma run_points (evs : list MessageEvent) : forall (st : LiveState) (all : list OHLCVBar),
  points st = lastMax all ->
  points (run st evs) = lastMax (all ++ emitted (lastEmitMs st) evs).
Proof.
  induction evs as [|ev evs IH]; intros st all Hst.
  - cbn. rewrite app_nil_r. assumption.
  - rewrite run_cons. cbn [LiveTicks.emitted]. unfold LiveTicks.onmessage.
    destruct (emits (lastEmitMs st) ev) as [bar|] eqn:E.
    + rewrite (IH _ (all ++ [bar])).
      * cbn [lastEmitMs]. rewrite <- app_assoc. reflexivity.
      * cbn [points]. rewrite Hst. apply lastMax_snoc.
    + apply IH. assumption.
Qed.

(** ** The throttle *)

Lemma emits_throttled (last : Z) (ev : MessageEvent) :
  nowMs ev - last < 1000 -> emits last ev = None.
Proof.
  intros H. unfold LiveTicks.emits. destruct (validate ev) as [[msg lp]|]; [|reflexivity].
  destruct (Z.ltb_spec (nowMs ev - last) 1000); [reflexivity|lia].
Qed.

Lemma emits_Some_inv (last : Z) (ev : MessageEvent) (bar : OHLCVBar) :
  emits last ev = Some bar ->
  1000 <= nowMs ev - last
  /\ exists msg lp, validate ev = Some (msg, lp) /\ bar = makeBar msg lp (dateNow ev).
Proof.
  unfold LiveTicks.emits. destruct (validate ev) as [[msg lp]|]; [|discriminate].
  destruct (Z.ltb_spec (nowMs ev - last) 1000); [discriminate|].
  intros [= <-]. split; [assumption|]. eauto.
Qed.

Lemma emits_valid (last : Z) (ev : MessageEvent) (msg : JSValue) (lp : float) :
  validate ev = Some (msg, lp) -> 1000 <= nowMs ev - last ->
  emits last ev = Some (makeBar msg lp (dateNow ev)).
Proof.
  intros V H. unfold LiveTicks.emits. rewrite V.
  destruct (Z.ltb_spec (nowMs ev - last) 1000); [lia|reflexivity].
Qed.

(** The throttle ref never moves backwards along a run. *)
Lemma lastEmitMs_mono (evs : list MessageEvent) : forall st,
  lastEmitMs st <= lastEmitMs (run st evs).
Proof.
  induction evs as [|ev evs IH]; intros st.
  - cbn. lia.
  - rewrite run_cons. etransitivity; [|apply IH].
    unfold LiveTicks.onmessage. destruct (emits (lastEmitMs st) ev) as [bar|] eqn:E.
    + apply emits_Some_inv in E. cbn [lastEmitMs]. lia.
    + lia.
Qed.

Lemma onmessage_accepts (st : LiveState) (ev : MessageEvent) (bar : OHLCVBar) :
  emits (lastEmitMs st) ev = Some bar ->
  onmessage st ev = mkLive (appendPoint (points st) bar) (nowMs ev).
Proof. intros E. unfold LiveTicks.onmessage. rewrite E. reflexivity. Qed.

Lemma onmessage_throttled (st : LiveState) (ev : MessageEvent) :
  nowMs ev - lastEmitMs st < 1000 -> onmessage st ev = st.
Proof.
  intros H. unfold LiveTicks.onmessage. rewrite (emits_throttled _ _ H). reflexivity.
Qed.

Lemma run_throttled (evs : list MessageEvent) : forall st,
  (forall ev, In ev evs -> nowMs ev - lastEmitMs st < 1000) ->
  run st evs = st.
Proof.
  induction evs as [|ev evs IH]; intros st H; [reflexivity|].
  rewrite run_cons, onmessage_throttled by (apply H; now left).
  apply IH. intros e He. apply H. now right.
Qed.

(** A burst whose handling times span at most 500 ms changes the state at
    most once. *)
Lemma run_burst (evs : list MessageEvent) : forall (st : LiveState) (t0 : Z),
  (forall ev, In ev evs -> t0 <= nowMs ev <= t0 + 500) ->
  run st evs = st
  \/ exists ev bar,
       In ev evs /\ emits (lastEmitMs st) ev = Some bar
       /\ run st evs = mkLive (appendPoint (points st) bar) (nowMs ev).
Proof.
  induction evs as [|ev evs IH]; intros st t0 H; [now left|].
  rewrite run_cons. destruct (emits (lastEmitMs st) ev) as [bar|] eqn:E.
  - right. exists ev, bar. split; [now left|]. split; [exact E|].
    rewrite (onmessage_accepts st ev bar E). apply run_throttled.
    intros e He. cbn [lastEmitMs].
    pose proof (H e (or_intror He)). pose proof (H ev (or_introl eq_refl)). lia.
  - assert (S0 : onmessage st ev = st).
    { unfold LiveTicks.onmessage. rewrite E. reflexivity. }
    rewrite S0.
    destruct (IH st t0 (fun e He => H e (or_intror He))) as [R|(e & bar & He & Ee & R)].
    + now left.
    + right. exists e, bar. split; [now right|]. split; assumption.
Qed.

Lemma appendPoint_length_le (prev : list OHLCVBar) (bar : OHLCVBar) :
  (List.length (appendPoint prev bar) <= List.length prev + 1)%nat.
Proof.
  rewrite appendPoint_spec, length_skipn, length_app. cbn [List.length]. lia.
Qed.

(** Events whose handling times are at least one second apart, the first one
    at least one second after [last]. *)
Fixpoint spaced (last : Z) (evs : list MessageEvent) : Prop :=
  match evs with
  | [] => True
  | ev :: rest => 1000 <= nowMs ev - last /\ spaced (nowMs ev) rest
  end.

Lemma spaced_earlier (evs : list MessageEvent) (last last' : Z) :
  last' <= last -> spaced last evs -> spaced last' evs.
Proof.
  destruct evs as [|ev evs]; [trivial|].
  intros Hle [H1 H2]. split; [lia|exact H2].
Qed.

(** The bar a message gives when the throttle lets it through: none when the
    message fails a check of the handler. *)
Definition barOf (ev : MessageEvent) : list OHLCVBar :=
  match validate ev with
  | Some (msg, lp) => [makeBar msg lp (dateNow ev)]
  | None => []
  end.

Definition barsOf (evs : list MessageEvent) : list OHLCVBar := flat_map barOf evs.

(** Messages handled at least one second apart: every message that passes
    the checks emits its bar. *)
Lemma emitted_spaced (evs : list MessageEvent) : forall last,
  spaced last evs -> emitted last evs = barsOf evs.
Proof.
  induction evs as [|ev evs IH]; intros last Hs; [reflexivity|].
  destruct Hs as [H1 Hs]. cbn [LiveTicks.emitted]. unfold barsOf. cbn [flat_map].
  fold (barsOf evs). unfold barOf.
  destruct (validate ev) as [[msg lp]|] eqn:V.
  - rewrite (emits_valid last ev msg lp V H1). cbn [app]. f_equal. apply IH, Hs.
  - unfold LiveTicks.emits. rewrite V. cbn [app]. apply IH.
    apply (spaced_earlier evs (nowMs ev)); [lia|exact Hs].
Qed.

(** A message as the feed sends it: one tick record with a numeric
    [last_price], no [received_at]. *)
Definition tickMessage (lp : JSValue) : JSValue :=
  JObject [("type"%string, JString "ticks");
           ("ticks"%string, JArray [JObject [("last_price"%string, lp)]])].

(** The tick records of a message, as the handler reads them. *)
Definition tickRecords (msg : JSValue) : list JSValue :=
  match getProp msg "ticks" with
  | JArray l => l
  | _ => []
  end.

(** The [last_price] of a tick record, as the handler reads it. *)
Definition lastPrice (t0 : JSValue) : JSValue :=
  getProp (if truthy t0 then t0 else JObject []) "last_price".

(** The handler's numeric reading of a price: a number is taken as it is,
    any other value goes through [Number(...)]. *)
Definition coerced (lpRaw : JSValue) : float :=
  match lpRaw with
  | JNumber x => x
  | _ => ToNumber StringToNumber NumberToString lpRaw
  end.

(** A value that is a finite number. *)
Definition finiteNumber (v : JSValue) : bool :=
  match v with
  | JNumber x => PrimFloat.is_finite x
  | _ => false
  end.

Lemma validate_None_iff (ev : MessageEvent) :
  validate ev = None <->
  parsed ev = None
  \/ exists msg, parsed ev = Some msg
       /\ (truthy msg = false
           \/ getProp msg "type" <> JString "ticks"
           \/ tickRecords msg = []
           \/ exists t0 rest, tickRecords msg = t0 :: rest
                /\ PrimFloat.is_finite (coerced (lastPrice t0)) = false).
Proof.
  unfold LiveTicks.validate. destruct (parsed ev) as [msg|]; [|intuition].
  fold (tickRecords msg).
  split.
  - intros H. right. exists msg. split; [reflexivity|].
    destruct (truthy msg); [|now left]. right. cbn [negb] in H.
    destruct (getProp msg "type") as [| | | |s| |] eqn:T; try (left; discriminate).
    destruct (string_dec s "ticks") as [->|N]; [|left; congruence].
    right.
    destruct (tickRecords msg) as [|t0 rest]; [now left|right].
    exists t0, rest. split; [reflexivity|].
    fold (lastPrice t0) in H. fold (coerced (lastPrice t0)) in H.
    destruct (PrimFloat.is_finite (coerced (lastPrice t0))); [discriminate|reflexivity].
  - intros [H|(msg' & [= <-] & H)]; [discriminate|].
    destruct H as [H|[H|[H|(t0 & rest & H & F)]]].
    + rewrite H. reflexivity.
    + destruct (truthy msg); [|reflexivity]. cbn [negb].
      destruct (getProp msg "type") as [| | | |s| |]; try reflexivity.
      destruct (string_dec s "ticks") as [->|N]; [congruence|].
      destruct s as [|c s]; [reflexivity|].
      repeat (destruct c as [[] [] [] [] [] [] [] []]; try reflexivity;
              destruct s as [|c s]; try reflexivity).
      congruence.
    + destruct (truthy msg); [|reflexivity]. cbn [negb].
      destruct (getProp msg "type") as [| | | |s| |]; try reflexivity.
      rewrite H.
      destruct s as [|c s]; [reflexivity|].
      repeat (destruct c as [[] [] [] [] [] [] [] []]; try reflexivity;
              destruct s as [|c s]; try reflexivity).
    + destruct (truthy msg); [|reflexivity]. cbn [negb].
      destruct (getProp msg "type") as [| | | |s| |]; try reflexivity.
      rewrite H. fold (lastPrice t0). fold (coerced (lastPrice t0)). rewrite F.
      destruct s as [|c s]; [reflexivity|].
      repeat (destruct c as [[] [] [] [] [] [] [] []]; try reflexivity;
              destruct s as [|c s]; try reflexivity).
Qed.

(** C9 (as amended): a message that fails to parse, is not tagged [ticks],
    carries no tick record, or whose first tick's [last_price] has a numeric
    reading ([Number(...)] for a non-number) that is not finite, is dropped:
    the handler emits no bar and leaves the buffer and the throttle ref as
    they were. *)
Theorem invalid_message_dropped (st : LiveState) (ev : MessageEvent) :
  parsed ev = None
  \/ (exists msg, parsed ev = Some msg
        /\ (truthy msg = false
            \/ getProp msg "type" <> JString "ticks"
            \/ tickRecords msg = []
            \/ exists t0 rest, tickRecords msg = t0 :: rest
                 /\ PrimFloat.is_finite (coerced (lastPrice t0)) = false)) ->
  emits (lastEmitMs st) ev = None /\ onmessage st ev = st.
Proof.
  intros H. apply validate_None_iff in H.
  assert (E : emits (lastEmitMs st) ev = None).
  { unfold LiveTicks.emits. rewrite H. reflexivity. }
  split; [exact E|]. unfold LiveTicks.onmessage. rewrite E. reflexivity.
Qed.

(** C6: starting from the empty buffer of a fresh connection, after any
    sequence of deliveries the buffer holds the last 30,000 emitted bars in
    acceptance order (all of them when fewer were emitted), so it never
    exceeds 30,000 entries. *)
Theorem buffer_keeps_last_30000 (evs : list MessageEvent) :
  let st := run connect evs in
  let acc := emitted 0 evs in
  points st = skipn (Z.to_nat (Z.of_nat (List.length acc) - 30000)) acc
  /\ Z.of_nat (List.length (points st)) = Z.min (Z.of_nat (List.length acc)) 30000
  /\ Z.of_nat (List.length (points st)) <= 30000.
Proof.
  cbv zeta.
  pose proof (run_points evs connect [] eq_refl) as H. cbn [app lastEmitMs connect] in H.
  pose proof (lastMax_length (emitted 0 evs)) as L.
  rewrite <- H in L. split; [exact H|]. change MAX_POINTS with 30000 in L. lia.
Qed.

End Handler.

(** One hundred price ticks handled one second apart give one hundred bars;
    the same hundred handled within half a second give one. *)
Definition ticksEvery (step : Z) (t0 : Z) (n : nat) : list MessageEvent :=
  map (fun i => let t := t0 + step * Z.of_nat i in
                mkEvent (Some (tickMessage (JNumber 2500.5%float))) t t)
      (seq 0 n).

Example hundred_ticks_one_per_second (S2N : string -> float) (N2S : float -> string) :
  List.length (emitted S2N N2S 0 (ticksEvery 1000 1793591400000 100)) = 100%nat
  /\ List.length (emitted S2N N2S 0 (ticksEvery 5 1793591400000 100)) = 1%nat.
Proof. split; vm_compute; reflexivity. Qed.

Example hundred_ticks_in_the_buffer (S2N : string -> float) (N2S : float -> string) :
  List.length (points (run S2N N2S connect (ticksEvery 1000 1793591400000 100))) = 100%nat
  /\ List.length (points (run S2N N2S connect (ticksEvery 5 1793591400000 100))) = 1%nat.
Proof. split; vm_compute; reflexivity. Qed.

(** C9 as stated fails: a first tick whose [last_price] is [null] is not a
    finite number, yet [Number(null)] is 0 and the handler emits a bar at
    price 0. *)
Lemma null_price_emits_bar :
  let ev := mkEvent (Some (tickMessage JNull)) 1793591400000 1793591400000 in
  finiteNumber (lastPrice (JObject [("last_price"%string, JNull)])) = false
  /\ forall S2N N2S,
       points (onmessage S2N N2S connect ev)
       = [mkBar "2026-11-02T03:50:00.000Z" 0%float 0%float 0%float 0%float None].
Proof. cbv zeta. split; [reflexivity|]. intros S2N N2S. vm_compute. reflexivity. Qed.

Lemma invalid_message_dropped_witness :
  let ev := mkEvent None 1793591400000 1793591400000 in
  emits (fun _ => PrimFloat.nan) (fun _ => ""%string) (lastEmitMs connect) ev = None
  /\ onmessage (fun _ => PrimFloat.nan) (fun _ => ""%string) connect ev = connect.
Proof.
  apply (invalid_message_dropped (fun _ => PrimFloat.nan) (fun _ => ""%string) connect
           (mkEvent None 1793591400000 1793591400000)).
  left. reflexivity.
Defined.

End LiveTicksFacts.

(* ================================================================== *)
(** * Facts about the backfill-and-merge coordinator *)

Module CoordinatorFacts.

Import JSString JSDate JS Window Coordinator.

(** ** The refetch decision *)

Lemma shouldRun_iff (last : option Marker) (symbol : string) (w : TodayWindow) (nowMs : Z) :
  shouldRun last symbol w nowMs = true <->
  last = None
  \/ exists l, last = Some l
       /\ (marker_symbol l <> symbol \/ marker_key l <> key w \/ nowMs - atMs l > 60000).
Proof.
  unfold shouldRun. destruct last as [l|].
  - rewrite !orb_true_iff, !negb_true_iff, !String.eqb_neq, Z.ltb_lt. split.
    + intros H. right. exists l. split; [reflexivity|]. intuition lia.
    + intros [H|(l' & [= <-] & H)]; [discriminate|]. intuition lia.
  - split; [now left|reflexivity].
Qed.

Lemma effect_trigger (p : Props) (nowMs : Z) (st : Coord) (w : TodayWindow) :
  enabled p = true -> symbol p <> ""%string -> window p = Some w ->
  shouldRun (lastBackfillRef st) (symbol p) w nowMs = true ->
  effect p nowMs st =
  mkCoord (backfillError st) (Some (mkMarker (symbol p) (key w) nowMs)) p
    (inflight st ++ [mkRequest (symbol p) (key w) "5minute" (fetchFromZ w) (fetchToZ w)])
    (refetchBaseCalls st).
Proof.
  intros He Hs Hw Hr. unfold effect. rewrite Hw, He, Hr.
  apply String.eqb_neq in Hs. rewrite Hs. reflexivity.
Qed.

Lemma effect_skip (p : Props) (nowMs : Z) (st : Coord) (w : TodayWindow) :
  enabled p = true -> symbol p <> ""%string -> window p = Some w ->
  shouldRun (lastBackfillRef st) (symbol p) w nowMs = false ->
  effect p nowMs st =
  mkCoord (backfillError st) (lastBackfillRef st) p (inflight st) (refetchBaseCalls st).
Proof.
  intros He Hs Hw Hr. unfold effect. rewrite Hw, He, Hr.
  apply String.eqb_neq in Hs. rewrite Hs. reflexivity.
Qed.

(** C4: the refetch decision is true exactly when there is no marker, the
    symbol differs from the marker's, the window key differs from the
    marker's, or more than 60,000 ms have passed since the marker's time.
    Hence, once a refetch was triggered at [now1], an evaluation for the same
    symbol and key at [now2] with [now2 - now1 <= 60000] says no, and an
    evaluation for another symbol says yes whatever the time. *)
Theorem refetch_decision :
  (forall last symbol w nowMs,
      shouldRun last symbol w nowMs = true <->
      last = None
      \/ exists l, last = Some l
           /\ (marker_symbol l <> symbol \/ marker_key l <> key w
               \/ nowMs - atMs l > 60000))
  /\ (forall p st w now1 p' w' now2,
        enabled p = true -> symbol p <> ""%string -> window p = Some w ->
        shouldRun (lastBackfillRef st) (symbol p) w now1 = true ->
        symbol p' = symbol p -> key w' = key w -> now2 - now1 <= 60000 ->
        shouldRun (lastBackfillRef (effect p now1 st)) (symbol p') w' now2 = false)
  /\ (forall l symbol w nowMs,
        marker_symbol l <> symbol -> shouldRun (Some l) symbol w nowMs = true).
Proof.
  split; [exact shouldRun_iff|split].
  - intros p st w now1 p' w' now2 He Hs Hw Hr Hs' Hk Ht.
    rewrite (effect_trigger p now1 st w He Hs Hw Hr). cbn [lastBackfillRef].
    unfold shouldRun. cbn [marker_symbol marker_key atMs].
    rewrite Hs', Hk, !String.eqb_refl. cbn [negb orb].
    apply Z.ltb_ge. lia.
  - intros l symbol w nowMs H. apply shouldRun_iff. right. exists l. auto.
Qed.

(** ** Settling a fetch *)

Lemma settle_applies (n : nat) (r : Request) (o : Outcome) (st : Coord) :
  nth_error (inflight st) n = Some r ->
  backfillError (settle n o st) = errorOf o
  /\ refetchBaseCalls (settle n o st) = S (refetchBaseCalls st)
  /\ lastBackfillRef (settle n o st) = lastBackfillRef st
  /\ current (settle n o st) = current st
  /\ inflight (settle n o st) = remove_nth n (inflight st).
Proof. intros H. unfold settle. rewrite H. cbn. auto. Qed.

Lemma Forall_perm {A : Type} (P : A -> Prop) (l l' : list A) :
  Permutation l l' -> Forall P l -> Forall P l'.
Proof.
  intros Hp H. rewrite Forall_forall in *. intros a Ha.
  apply H. apply (Permutation_in a (Permutation_sym Hp) Ha).
Qed.

Section MergeFacts.

Variable getTime : string -> option Z.

Local Notation compareFn := (compareFn getTime).
Local Notation after := (after getTime).
Local Notation insert := (insert getTime).
Local Notation sort := (sort getTime).
Local Notation data := (data getTime).

(** A bar whose timestamp the engine reads as a date. *)
Definition valid (b : OHLCVBar) : Prop := getTime (timestamp b) <> None.

(** [a] is not later than [b]. *)
Definition time_le (a b : OHLCVBar) : Prop :=
  match getTime (timestamp a), getTime (timestamp b) with
  | Some x, Some y => x <= y
  | _, _ => False
  end.

Lemma insert_perm (x : OHLCVBar) (l : list OHLCVBar) : Permutation (insert x l) (x :: l).
Proof.
  induction l as [|y l IH]; cbn [Coordinator.insert]; [reflexivity|].
  destruct (after x y); [|reflexivity].
  rewrite IH. apply perm_swap.
Qed.

Lemma sort_perm (l : list OHLCVBar) : Permutation (sort l) l.
Proof.
  induction l as [|x l IH]; cbn [Coordinator.sort]; [reflexivity|].
  rewrite insert_perm. now constructor.
Qed.

Lemma after_false_le (x y : OHLCVBar) : valid x -> valid y -> after x y = false -> time_le x y.
Proof.
  unfold valid, Coordinator.after, Coordinator.compareFn, time_le.
  destruct (getTime (timestamp x)), (getTime (timestamp y)); intros Hx Hy H; try congruence.
  apply Z.ltb_ge in H. lia.
Qed.

Lemma after_true_le (x y : OHLCVBar) : after x y = true -> time_le y x.
Proof.
  unfold Coordinator.after, Coordinator.compareFn, time_le.
  destruct (getTime (timestamp x)), (getTime (timestamp y)); intros H; try discriminate.
  apply Z.ltb_lt in H. lia.
Qed.

Lemma time_le_trans (a b c : OHLCVBar) : time_le a b -> time_le b c -> time_le a c.
Proof.
  unfold time_le.
  destruct (getTime (timestamp a)), (getTime (timestamp b)), (getTime (timestamp c));
    intros; try tauto; lia.
Qed.

Lemma insert_sorted (x : OHLCVBar) (l : list OHLCVBar) :
  valid x -> Forall valid l ->
  StronglySorted time_le l -> StronglySorted time_le (insert x l).
Proof.
  intros Hx Hv Hs. induction Hs as [|y l Hs IH Hy]; cbn [Coordinator.insert].
  - repeat constructor.
  - inversion Hv as [|? ? Hvy Hvl]; subst.
    destruct (after x y) eqn:E.
    + constructor; [apply IH; assumption|].
      apply (Forall_perm _ (x :: l)); [symmetry; apply insert_perm|].
      constructor; [apply after_true_le; assumption|assumption].
    + pose proof (after_false_le x y Hx Hvy E) as Hxy.
      constructor; [constructor; assumption|].
      constructor; [assumption|].
      eapply Forall_impl; [|exact Hy]. intros a Ha. eapply time_le_trans; eassumption.
Qed.

Lemma sort_sorted (l : list OHLCVBar) :
  Forall valid l -> StronglySorted time_le (sort l).
Proof.
  induction l as [|x l IH]; intros Hv; cbn [Coordinator.sort]; [constructor|].
  inversion Hv; subst. apply insert_sorted; auto.
  apply (Forall_perm _ l); [symmetry; apply sort_perm|assumption].
Qed.

Definition baseOf (baseSeries : option (list OHLCVBar)) : list OHLCVBar :=
  match baseSeries with
  | Some l => l
  | None => []
  end.

Lemma data_disabled (baseSeries : option (list OHLCVBar)) (live : list OHLCVBar) :
  data false baseSeries live = baseOf baseSeries.
Proof. reflexivity. Qed.

Lemma data_no_live (enabled : bool) (baseSeries : option (list OHLCVBar)) :
  data enabled baseSeries [] = baseOf baseSeries.
Proof. destruct enabled; reflexivity. Qed.

Lemma data_live (baseSeries : option (list OHLCVBar)) (live : list OHLCVBar) :
  live <> [] -> data true baseSeries live = sort (baseOf baseSeries ++ live).
Proof. intros H. destruct live; [congruence|reflexivity]. Qed.

Lemma data_perm (baseSeries : option (list OHLCVBar)) (live : list OHLCVBar) :
  Permutation (data true baseSeries live) (baseOf baseSeries ++ live).
Proof.
  destruct live as [|b live].
  - rewrite data_no_live, app_nil_r. reflexivity.
  - rewrite data_live by discriminate. apply sort_perm.
Qed.



(** C2 (as amended): the merged series keeps every bar of both inputs (it is
    a rearrangement of the historical bars followed by the live bars), so it
    is free of repeated timestamps exactly when the two inputs together
    are. *)
Theorem merged_keeps_every_bar (baseSeries : option (list OHLCVBar))
    (live : list OHLCVBar) :
  Permutation (data true baseSeries live) (baseOf baseSeries ++ live)
  /\ (NoDup (map timestamp (data true baseSeries live))
      <-> NoDup (map timestamp (baseOf baseSeries ++ live))).
Proof.
  pose proof (data_perm baseSeries live) as P. split; [exact P|].
  split; apply Permutation_NoDup, Permutation_map;
    [exact P|symmetry; exact P].
Qed.

(** C3 (as amended): the merge of a non-empty live buffer is ascending by
    time when every timestamp is read as a date; for every historical series
    and live buffer the merged series has [len(historical) + len(live)] bars;
    merging an empty history gives the bars of the live buffer, in ascending
    order when their timestamps are read as dates; with live mode off, or
    with an empty live buffer, the historical series is returned as it is.
    Only the two statements about the order carry the proviso on the
    timestamps. *)
Theorem merge_sorted_when_live (baseSeries : option (list OHLCVBar))
    (live : list OHLCVBar) :
  (Forall valid (baseOf baseSeries ++ live) -> live <> [] ->
     StronglySorted time_le (data true baseSeries live))
  /\ List.length (data true baseSeries live)
     = (List.length (baseOf baseSeries) + List.length live)%nat
  /\ ((Forall valid live -> StronglySorted time_le (data true (Some []) live))
      /\ Permutation (data true (Some []) live) live)
  /\ data false baseSeries live = baseOf baseSeries
  /\ data true baseSeries [] = baseOf baseSeries.
Proof.
  split; [|split; [|split; [split|split]]].
  - intros Hv Hne. rewrite data_live by assumption. apply sort_sorted. assumption.
  - rewrite (Permutation_length (data_perm baseSeries live)). apply length_app.
  - intros Hl. destruct live as [|b live]; [constructor|].
    rewrite data_live by discriminate. apply sort_sorted. assumption.
  - apply (data_perm (Some []) live).
  - reflexivity.
  - apply data_no_live.
Qed.

(** C10: with live mode on and an empty live buffer the historical series is
    returned exactly as given; no sort is applied, so a series that is out of
    order stays out of order. *)
Theorem empty_live_passes_history_through (baseSeries : option (list OHLCVBar)) :
  data true baseSeries [] = baseOf baseSeries
  /\ (~ StronglySorted time_le (baseOf baseSeries) ->
      ~ StronglySorted time_le (data true baseSeries [])).
Proof.
  pose proof (data_no_live true baseSeries) as E. split; [exact E|].
  rewrite E. auto.
Qed.

End MergeFacts.

(** ** Concrete runs *)

Definition barAt (ts : string) (price : float) : OHLCVBar :=
  mkBar ts price price price price None.

Definition sampleWindow : TodayWindow :=
  computeTodayWindow 1793591400000 1793591400000.

Definition propsFor (symbol : string) : Props :=
  mkProps symbol true (Some sampleWindow).

(** C1 (as amended): whenever a fetch in flight settles, its continuation
    runs whatever the current symbol and window are: the retained error
    becomes the error of the outcome ([null] when there is none) and
    [refetchBase] is called once more; the marker and the render arguments
    are left alone. *)
Theorem response_applied_on_arrival (n : nat) (r : Request) (o : Outcome) (st : Coord) :
  nth_error (inflight st) n = Some r ->
  backfillError (settle n o st) = errorOf o
  /\ refetchBaseCalls (settle n o st) = S (refetchBaseCalls st)
  /\ lastBackfillRef (settle n o st) = lastBackfillRef st
  /\ current (settle n o st) = current st
  /\ inflight (settle n o st) = remove_nth n (inflight st).
Proof. apply settle_applies. Qed.

(** C1 as stated fails: a fetch issued for one symbol that settles after the
    symbol changed still sets the error and calls [refetchBase]. *)
Lemma stale_response_is_applied :
  let st1 := effect (propsFor "RELIANCE") 1793591400000 (init (propsFor "RELIANCE")) in
  let st2 := effect (propsFor "TCS") 1793591405000 st1 in
  let st3 := settle 0 (Resolved (JObject [("error"%string, JString "timeout")])) st2 in
  (exists r, nth_error (inflight st2) 0 = Some r /\ stale r st2)
  /\ backfillError st2 = JNull
  /\ backfillError st3 = JString "timeout"
  /\ refetchBaseCalls st2 = 0%nat
  /\ refetchBaseCalls st3 = 1%nat.
Proof.
  cbv zeta. split; [|vm_compute; auto].
  eexists. split; [vm_compute; reflexivity|].
  left. vm_compute. discriminate.
Qed.

Lemma response_applied_on_arrival_witness :
  let st := effect (propsFor "RELIANCE") 1793591400000 (init (propsFor "RELIANCE")) in
  let o := Rejected (JString "network") in
  backfillError (settle 0 o st) = errorOf o
  /\ refetchBaseCalls (settle 0 o st) = S (refetchBaseCalls st)
  /\ lastBackfillRef (settle 0 o st) = lastBackfillRef st
  /\ current (settle 0 o st) = current st
  /\ inflight (settle 0 o st) = remove_nth 0 (inflight st).
Proof.
  cbv zeta.
  apply (response_applied_on_arrival 0
           (mkRequest "RELIANCE" (key sampleWindow) "5minute"
              (fetchFromZ sampleWindow) (fetchToZ sampleWindow))).
  vm_compute. reflexivity.
Defined.

(** C2 as stated fails: a historical bar and a live bar with one timestamp
    are both kept. *)
Lemma merged_duplicate_timestamp :
  ~ NoDup (map timestamp
             (data instantOf true
                (Some [barAt "2026-11-02T03:50:00.000Z" 2500%float])
                [barAt "2026-11-02T03:50:00.000Z" 2500.5%float])).
Proof.
  intros H. vm_compute in H. inversion H as [|? ? Hin _]. apply Hin. now left.
Qed.

(** C3 as stated fails, in two ways.  With live mode on and an empty live
    buffer an out-of-order history comes back out of order.  And with a live
    bar whose timestamp is not a date every comparison with that bar gives
    NaN, so the sort moves nothing across it: the 03:55 bar stays before the
    03:50 bar. *)
Lemma merge_not_always_sorted :
  ~ StronglySorted (time_le instantOf)
      (data instantOf true
         (Some [barAt "2026-11-02T03:55:00.000Z" 2501%float;
                barAt "2026-11-02T03:50:00.000Z" 2500%float])
         [])
  /\ data instantOf true
       (Some [barAt "2026-11-02T03:55:00.000Z" 2501%float])
       [barAt "n/a" 2500.5%float; barAt "2026-11-02T03:50:00.000Z" 2500%float]
     = [barAt "2026-11-02T03:55:00.000Z" 2501%float;
        barAt "n/a" 2500.5%float;
        barAt "2026-11-02T03:50:00.000Z" 2500%float]
  /\ ~ StronglySorted (time_le instantOf)
        (data instantOf true
           (Some [barAt "2026-11-02T03:55:00.000Z" 2501%float])
           [barAt "n/a" 2500.5%float; barAt "2026-11-02T03:50:00.000Z" 2500%float])
  /\ ~ time_le instantOf (barAt "2026-11-02T03:55:00.000Z" 2501%float)
                         (barAt "2026-11-02T03:50:00.000Z" 2500%float).
Proof.
  assert (N : ~ time_le instantOf (barAt "2026-11-02T03:55:00.000Z" 2501%float)
                                  (barAt "2026-11-02T03:50:00.000Z" 2500%float)).
  { intros Hle. vm_compute in Hle. apply Hle. reflexivity. }
  assert (E : data instantOf true
                (Some [barAt "2026-11-02T03:55:00.000Z" 2501%float])
                [barAt "n/a" 2500.5%float; barAt "2026-11-02T03:50:00.000Z" 2500%float]
              = [barAt "2026-11-02T03:55:00.000Z" 2501%float;
                 barAt "n/a" 2500.5%float;
                 barAt "2026-11-02T03:50:00.000Z" 2500%float]).
  { vm_compute. reflexivity. }
  split; [|split; [exact E|split; [|exact N]]].
  - intros H. rewrite data_no_live in H. cbn [baseOf] in H.
    inversion H as [|? ? _ HF]. inversion HF as [|? ? Hle _].
    exact (N Hle).
  - rewrite E. intros H.
    inversion H as [|? ? _ HF]. inversion HF as [|? ? _ HF'].
    inversion HF' as [|? ? Hle _]. exact (N Hle).
Qed.

Lemma merge_sorted_when_live_witness :
  let base := Some [barAt "2026-11-02T03:55:00.000Z" 2501%float;
                    barAt "2026-11-02T03:50:00.000Z" 2500%float] in
  let live := [barAt "2026-11-02T03:52:30.000Z" 2500.5%float] in
  StronglySorted (time_le instantOf) (data instantOf true base live)
  /\ List.length (data instantOf true base live)
     = (List.length (baseOf base) + List.length live)%nat
  /\ (StronglySorted (time_le instantOf) (data instantOf true (Some []) live)
      /\ Permutation (data instantOf true (Some []) live) live)
  /\ data instantOf false base live = baseOf base
  /\ data instantOf true base [] = baseOf base.
Proof.
  cbv zeta.
  destruct (merge_sorted_when_live instantOf
              (Some [barAt "2026-11-02T03:55:00.000Z" 2501%float;
                     barAt "2026-11-02T03:50:00.000Z" 2500%float])
              [barAt "2026-11-02T03:52:30.000Z" 2500.5%float])
    as (S1 & L & (S0 & P) & D & E).
  split; [|split; [exact L|split; [split; [|exact P]|split; [exact D|exact E]]]].
  - apply S1; [|discriminate].
    repeat constructor; vm_compute; discriminate.
  - apply S0. repeat constructor; vm_compute; discriminate.
Defined.

Example merge_example :
  map timestamp
    (data instantOf true
       (Some [barAt "2026-11-02T03:55:00.000Z" 2501%float;
              barAt "2026-11-02T03:50:00.000Z" 2500%float])
       [barAt "2026-11-02T03:52:30.000Z" 2500.5%float])
  = ["2026-11-02T03:50:00.000Z"; "2026-11-02T03:52:30.000Z";
     "2026-11-02T03:55:00.000Z"]%string.
Proof. vm_compute. reflexivity. Qed.

End CoordinatorFacts.

(* ================================================================== *)
(** * Facts about the connection life cycle *)

Module LiveSocketFacts.

Import JSString JSDate JS JSText LiveTicks LiveSocket.

(** A socket that still is, or may become, a source of messages. *)
Definition isLive (r : ReadyState) : bool :=
  match r with
  | OPEN | CONNECTING => true
  | CLOSING | CLOSED => false
  end.

Definition noLiveSocket (h : Hook) : Prop :=
  forall i r, readyStateOf h i = Some r -> isLive r = false.

(** What every reachable state satisfies: a live socket is the one [wsRef]
    points to, and [wsRef] is [null] unless a cleanup function is pending. *)
Definition Inv (h : Hook) : Prop :=
  (forall i r, readyStateOf h i = Some r -> isLive r = true -> wsRef h = Some i)
  /\ (hasCleanup h = false -> wsRef h = None /\ points (live h) = []).

Lemma nth_error_setState (l : list (string * ReadyState)) : forall i j r,
  option_map snd (nth_error (setState i r l) j) =
  match option_map snd (nth_error l j) with
  | Some r0 => Some (if Nat.eqb i j then r else r0)
  | None => None
  end.
Proof.
  induction l as [|[u r0] l IH]; intros i j r.
  - destruct i, j; reflexivity.
  - destruct i as [|i], j as [|j]; cbn; try reflexivity.
    + destruct (option_map snd (nth_error l j)); reflexivity.
    + apply IH.
Qed.

Lemma readyStateOf_app_new (h : Hook) (u : string) (r r' : ReadyState) (i : nat) :
  option_map snd (nth_error (sockets h ++ [(u, r)]) i) = Some r' ->
  readyStateOf h i = Some r' \/ (i = List.length (sockets h) /\ r' = r).
Proof.
  unfold readyStateOf. intros H.
  destruct (Nat.lt_ge_cases i (List.length (sockets h))) as [L|G].
  - rewrite nth_error_app1 in H by assumption. now left.
  - rewrite nth_error_app2 in H by assumption.
    destruct (i - List.length (sockets h))%nat as [|k] eqn:E.
    + cbn in H. injection H as <-. right. split; [lia|reflexivity].
    + cbn in H. destruct k; discriminate.
Qed.

Lemma cleanup_wsRef (h : Hook) : wsRef (cleanup h) = None.
Proof.
  unfold cleanup. destruct (wsRef h) as [i|]; [|reflexivity].
  destruct (readyStateOf h i) as [[]|]; reflexivity.
Qed.

Lemma cleanup_live (h : Hook) : live (cleanup h) = live h.
Proof.
  unfold cleanup. destruct (wsRef h) as [i|]; [|reflexivity].
  destruct (readyStateOf h i) as [[]|]; reflexivity.
Qed.

Lemma cleanup_hasCleanup (h : Hook) : hasCleanup (cleanup h) = hasCleanup h.
Proof.
  unfold cleanup. destruct (wsRef h) as [i|]; [|reflexivity].
  destruct (readyStateOf h i) as [[]|]; reflexivity.
Qed.


(** After [cleanup] no socket is live, provided the live ones were
    [wsRef]'s. *)
Lemma cleanup_noLive (h : Hook) :
  (forall i r, readyStateOf h i = Some r -> isLive r = true -> wsRef h = Some i) ->
  noLiveSocket (cleanup h).
Proof.
  intros HI j r Hj.
  destruct (isLive r) eqn:Lr; [exfalso|reflexivity].
  unfold cleanup in Hj. destruct (wsRef h) as [i|] eqn:W.
  - destruct (readyStateOf h i) as [ri|] eqn:Ri.
    + assert (Hcase : (isLive ri = true /\ readyStateOf (closeSocket i (mkHook (live h) None (sockets h) (hasCleanup h))) j = Some r)
                      \/ (isLive ri = false /\ readyStateOf h j = Some r)).
      { destruct ri; [left|left|right|right]; (split; [reflexivity|exact Hj]). }
      destruct Hcase as [[_ Hj']|[Lf Hj']].
      * unfold readyStateOf, closeSocket in Hj'. cbn [sockets] in Hj'.
        rewrite nth_error_setState in Hj'.
        destruct (option_map snd (nth_error (sockets h) j)) as [r0|] eqn:E; [|discriminate].
        destruct (Nat.eqb_spec i j) as [->|N].
        -- injection Hj' as <-. discriminate.
        -- injection Hj' as ->. specialize (HI j r E Lr). congruence.
      * specialize (HI j r Hj' Lr). injection HI as <-.
        rewrite Ri in Hj'. injection Hj' as <-. rewrite Lr in Lf. discriminate.
    + specialize (HI j r Hj Lr). injection HI as <-.
      unfold readyStateOf in *. cbn [sockets] in *. congruence.
  - specialize (HI j r Hj Lr). discriminate.
Qed.

Lemma effectCleanup_noLive (h : Hook) : Inv h -> noLiveSocket (effectCleanup h).
Proof. intros [HI _]. exact (cleanup_noLive h HI). Qed.

Lemma effectCleanup_fields (h : Hook) :
  points (live (effectCleanup h)) = []
  /\ wsRef (effectCleanup h) = None
  /\ hasCleanup (effectCleanup h) = false
  /\ lastEmitMs (live (effectCleanup h)) = lastEmitMs (live h).
Proof.
  unfold effectCleanup, setPoints. cbn. rewrite cleanup_wsRef, cleanup_live. auto.
Qed.

Lemma noLive_Inv (h : Hook) :
  noLiveSocket h -> wsRef h = None -> points (live h) = [] -> Inv h.
Proof.
  intros N W P. split; [|auto].
  intros i r Hi L. rewrite (N i r Hi) in L. discriminate.
Qed.

(** The state in which the effect body starts: no live socket, [wsRef] null. *)
Lemma before_body (h : Hook) :
  Inv h ->
  let h0 := if hasCleanup h then effectCleanup h else h in
  noLiveSocket h0 /\ wsRef h0 = None.
Proof.
  intros I. cbv zeta. destruct (hasCleanup h) eqn:C.
  - split; [apply effectCleanup_noLive, I|apply effectCleanup_fields].
  - destruct I as [HI HW]. destruct (HW C) as [HW' _]. split; [|exact HW'].
    intros i r Hi. destruct (isLive r) eqn:L; [|reflexivity].
    specialize (HI i r Hi L). congruence.
Qed.

Lemma effectBody_off (base symbol : string) (enabled : bool) (h : Hook) :
  enabled = false \/ toUpperCase (trim symbol) = ""%string ->
  effectBody base symbol enabled h = effectCleanup h.
Proof.
  intros H. unfold effectBody, effectCleanup.
  destruct enabled; cbn [negb].
  - destruct H as [H|H]; [discriminate|]. rewrite H. reflexivity.
  - reflexivity.
Qed.

Lemma effectBody_on (base symbol : string) (h : Hook) :
  toUpperCase (trim symbol) <> ""%string ->
  effectBody base symbol true h =
  mkHook (mkLive [] 0) (Some (List.length (sockets h)))
    (sockets h ++ [(toWsUrl base (ticksPath (toUpperCase (trim symbol))), CONNECTING)])
    true.
Proof.
  intros H. unfold effectBody. cbn [negb].
  apply String.eqb_neq in H. rewrite H. reflexivity.
Qed.

Lemma effectBody_Inv (base symbol : string) (enabled : bool) (h : Hook) :
  noLiveSocket h -> wsRef h = None -> Inv (effectBody base symbol enabled h).
Proof.
  intros N W.
  destruct enabled.
  - destruct (string_dec (toUpperCase (trim symbol)) "") as [E|E].
    + rewrite effectBody_off by (now right).
      apply noLive_Inv; [|apply effectCleanup_fields..].
      apply cleanup_noLive. intros i r Hi L. rewrite (N i r Hi) in L. discriminate.
    + rewrite effectBody_on by assumption. split; [|discriminate].
      intros i r Hi L. unfold readyStateOf in Hi. cbn [sockets wsRef] in *.
      apply readyStateOf_app_new in Hi. destruct Hi as [Hi|[-> _]]; [|reflexivity].
      rewrite (N i r Hi) in L. discriminate.
  - rewrite effectBody_off by (now left).
    apply noLive_Inv; [|apply effectCleanup_fields..].
    apply cleanup_noLive. intros i r Hi L. rewrite (N i r Hi) in L. discriminate.
Qed.

Section Transport.

Variable StringToNumber : string -> float.
Variable NumberToString : float -> string.

Local Notation step := (step StringToNumber NumberToString).
Local Notation steps := (steps StringToNumber NumberToString).

Lemma step_Inv (h : Hook) (e : Event) : Inv h -> Inv (step h e).
Proof.
  intros I. destruct e as [base symbol enabled| |i|i|i ev]; cbn [LiveSocket.step].
  - unfold rerender. destruct (before_body h I) as [N W].
    apply effectBody_Inv; assumption.
  - unfold unmount. destruct (hasCleanup h) eqn:C; [|exact I].
    apply noLive_Inv; [apply effectCleanup_noLive, I|apply effectCleanup_fields..].
  - destruct (readyStateOf h i) as [[]|] eqn:R; try exact I.
    destruct I as [HI HW]. split; [|exact HW].
    intros j r Hj L. unfold readyStateOf in Hj. cbn [sockets wsRef] in *.
    rewrite nth_error_setState in Hj.
    destruct (option_map snd (nth_error (sockets h) j)) as [r0|] eqn:E; [|discriminate].
    destruct (Nat.eqb_spec i j) as [->|Ne].
    + apply (HI j CONNECTING); [exact R|reflexivity].
    + injection Hj as ->. apply (HI j r); assumption.
  - destruct I as [HI HW]. split; [|exact HW].
    intros j r Hj L. unfold readyStateOf in Hj. cbn [sockets wsRef] in *.
    rewrite nth_error_setState in Hj.
    destruct (option_map snd (nth_error (sockets h) j)) as [r0|] eqn:E; [|discriminate].
    destruct (Nat.eqb_spec i j) as [->|Ne].
    + injection Hj as <-. discriminate.
    + injection Hj as ->. apply (HI j r); assumption.
  - destruct (readyStateOf h i) as [[]|] eqn:R; try exact I.
    destruct I as [HI HW]. split; [exact HI|].
    cbn [hasCleanup wsRef live]. intros C. destruct (HW C) as [W _].
    specialize (HI i OPEN R eq_refl). congruence.
Qed.

Lemma mounted_Inv : Inv mounted.
Proof.
  split; [|split; reflexivity]. intros [|i] r H; discriminate.
Qed.

Lemma steps_Inv (es : list Event) : forall h, Inv h -> Inv (steps h es).
Proof.
  induction es as [|e es IH]; intros h I; [exact I|].
  apply IH, step_Inv, I.
Qed.

(** Only the socket [wsRef] points to can be open or connecting. *)
Lemma Inv_live_unique (h : Hook) (i j : nat) (ri rj : ReadyState) :
  Inv h ->
  readyStateOf h i = Some ri -> isLive ri = true ->
  readyStateOf h j = Some rj -> isLive rj = true -> i = j.
Proof.
  intros [HI _] Hi Li Hj Lj.
  pose proof (HI i ri Hi Li) as A. pose proof (HI j rj Hj Lj) as B. congruence.
Qed.

Lemma Inv_off_noLive (h : Hook) : Inv h -> wsRef h = None -> noLiveSocket h.
Proof.
  intros [HI _] W i r Hi. destruct (isLive r) eqn:L; [|reflexivity].
  specialize (HI i r Hi L). congruence.
Qed.

(** X1: in every state the hook can reach, at most one socket is open or
    connecting. *)
Theorem single_live_connection (es : list Event) (i j : nat) (ri rj : ReadyState) :
  readyStateOf (steps mounted es) i = Some ri -> isLive ri = true ->
  readyStateOf (steps mounted es) j = Some rj -> isLive rj = true ->
  i = j.
Proof. apply Inv_live_unique, steps_Inv, mounted_Inv. Qed.

(** X2: tearing the view down, disabling streaming, or rendering with a
    blank symbol leaves no socket open or connecting, clears the buffer and
    nulls [wsRef], from every reachable state. *)
Theorem teardown_closes_and_clears (es : list Event) (e : Event) :
  (e = Unmount
   \/ (exists base symbol, e = Render base symbol false)
   \/ (exists base symbol enabled,
         e = Render base symbol enabled /\ toUpperCase (trim symbol) = ""%string)) ->
  let h := step (steps mounted es) e in
  noLiveSocket h /\ points (live h) = [] /\ wsRef h = None.
Proof.
  intros He. cbv zeta.
  pose proof (steps_Inv es mounted mounted_Inv) as I.
  set (h := steps mounted es) in *. clearbody h.
  assert (Hoff : forall base symbol enabled,
             enabled = false \/ toUpperCase (trim symbol) = ""%string ->
             let h' := step h (Render base symbol enabled) in
             noLiveSocket h' /\ points (live h') = [] /\ wsRef h' = None).
  { intros base symbol enabled Hd. cbn [LiveSocket.step]. unfold rerender.
    rewrite effectBody_off by assumption.
    destruct (before_body h I) as [N W].
    split; [|split; apply effectCleanup_fields].
    apply cleanup_noLive. intros i r Hi L. rewrite (N i r Hi) in L. discriminate. }
  destruct He as [->|[(base & symbol & ->)|(base & symbol & enabled & -> & Hb)]].
  - cbn [LiveSocket.step]. unfold unmount. destruct (hasCleanup h) eqn:C.
    + split; [apply effectCleanup_noLive, I|split; apply effectCleanup_fields].
    + destruct I as [HI HW]. destruct (HW C) as [W P].
      split; [|auto]. apply Inv_off_noLive; [split; assumption|assumption].
  - apply Hoff. now left.
  - apply Hoff. now right.
Qed.

(** X3: a message changes the hook only when it is delivered on the socket
    [wsRef] points to, and that socket is open: nothing from an earlier
    symbol's connection reaches the buffer. *)
Theorem only_current_socket_feeds_buffer (es : list Event) (i : nat) (ev : MessageEvent) :
  step (steps mounted es) (Message i ev) <> steps mounted es ->
  wsRef (steps mounted es) = Some i /\ readyStateOf (steps mounted es) i = Some OPEN.
Proof.
  pose proof (steps_Inv es mounted mounted_Inv) as [HI _].
  set (h := steps mounted es) in *. clearbody h.
  cbn [LiveSocket.step]. intros Hne.
  destruct (readyStateOf h i) as [[]|] eqn:R; try congruence.
  split; [|reflexivity]. apply (HI i OPEN R eq_refl).
Qed.

(** Transport events: everything but renders and teardown. *)
Definition isTransport (e : Event) : bool :=
  match e with
  | Render _ _ _ | Unmount => false
  | _ => true
  end.

Lemma transport_noLive (h : Hook) (e : Event) :
  isTransport e = true -> noLiveSocket h ->
  noLiveSocket (step h e) /\ live (step h e) = live h
  /\ List.length (sockets (step h e)) = List.length (sockets h).
Proof.
  assert (L : forall i r l, List.length (setState i r l) = List.length l).
  { intros i r l. revert i. induction l as [|[u r0] l IH]; intros [|i]; cbn; auto. }
  intros T N. destruct e as [| |i|i|i ev]; try discriminate; cbn [LiveSocket.step].
  - destruct (readyStateOf h i) as [r|] eqn:R; [|auto].
    pose proof (N i r R) as Nr. destruct r; try discriminate; auto.
  - split; [|split; [reflexivity|apply L]].
    intros j r Hj. unfold readyStateOf in Hj. cbn [sockets] in Hj.
    rewrite nth_error_setState in Hj.
    destruct (option_map snd (nth_error (sockets h) j)) as [r0|] eqn:E; [|discriminate].
    destruct (Nat.eqb_spec i j); injection Hj as <-; [reflexivity|].
    apply (N j r0 E).
  - destruct (readyStateOf h i) as [r|] eqn:R; [|auto].
    pose proof (N i r R) as Nr. destruct r; try discriminate; auto.
Qed.

(** X4: there is no automatic reconnect.  Once no socket is open or
    connecting (the transport failed or was closed), transport events alone
    create no socket and never change the buffer or the throttle ref. *)
Theorem no_reconnect_after_failure (es es' : list Event) :
  noLiveSocket (steps mounted es) ->
  forallb isTransport es' = true ->
  let h := steps mounted es in
  let h' := steps h es' in
  live h' = live h
  /\ List.length (sockets h') = List.length (sockets h)
  /\ noLiveSocket h'.
Proof.
  intros N T. cbv zeta.
  set (h := steps mounted es) in *. clearbody h. revert h N.
  induction es' as [|e es' IH]; intros h N; [auto|].
  cbn [forallb] in T. apply andb_true_iff in T. destruct T as [Te T].
  destruct (transport_noLive h e Te N) as (N' & E1 & E2).
  change (steps h (e :: es')) with (steps (step h e) es').
  destruct (IH T (step h e) N') as (A & B & C).
  rewrite A, B. auto.
Qed.




End Transport.

End LiveSocketFacts.

(* ================================================================== *)
(** * The throttle of the tick stream client *)

Module ThrottleFacts.

Import JSString JSDate JS JSText LiveTicks LiveSocket LiveTicksFacts LiveSocketFacts.
Local Open Scope string_scope.
Local Open Scope Z_scope.

Section Throttle.

Variable StringToNumber : string -> float.
Variable NumberToString : float -> string.

Local Notation emits := (emits StringToNumber NumberToString).
Local Notation onmessage := (onmessage StringToNumber NumberToString).
Local Notation run := (run StringToNumber NumberToString).
Local Notation barsOf := (barsOf StringToNumber NumberToString).

(** C5 (as amended): the throttle holds between two (re)connects.  When a
    message is accepted its bar is appended to the buffer, and no later
    message of the same connection handled less than 1000 ms after it changes
    the buffer or the throttle ref; a burst whose handling times span at most
    500 ms appends at most one bar; of messages handled at least one second
    apart every one that passes the handler's checks appends its bar (the
    buffer is the last 30,000 of them); and a render that connects starts
    from an empty buffer and a zeroed throttle, whatever was emitted
    before. *)
Theorem throttle_one_bar_per_second :
  (forall st ev bar mid ev',
      emits (lastEmitMs st) ev = Some bar ->
      nowMs ev' - nowMs ev < 1000 ->
      points (onmessage st ev) = appendPoint (points st) bar
      /\ onmessage (run (onmessage st ev) mid) ev' = run (onmessage st ev) mid)
  /\ (forall st evs t0,
        (forall ev, In ev evs -> t0 <= nowMs ev <= t0 + 500) ->
        (run st evs = st
         \/ exists ev bar,
              In ev evs
              /\ run st evs = mkLive (appendPoint (points st) bar) (nowMs ev))
        /\ (List.length (points (run st evs)) <= List.length (points st) + 1)%nat)
  /\ (forall st all evs,
        points st = lastMax all ->
        spaced (lastEmitMs st) evs ->
        points (run st evs) = lastMax (all ++ barsOf evs))
  /\ (forall h base symbol,
        toUpperCase (trim symbol) <> "" ->
        live (rerender base symbol true h) = connect).
Proof.
  split; [|split; [|split]].
  - intros st ev bar mid ev' E Hlt.
    rewrite (onmessage_accepts _ _ st ev bar E). split; [reflexivity|].
    apply onmessage_throttled.
    pose proof (lastEmitMs_mono StringToNumber NumberToString mid
                  (mkLive (appendPoint (points st) bar) (nowMs ev))) as Hmono.
    cbn [lastEmitMs] in Hmono. lia.
  - intros st evs t0 H.
    destruct (run_burst StringToNumber NumberToString evs st t0 H)
      as [R|(ev & bar & Hin & _ & R)].
    + split; [now left|]. rewrite R. lia.
    + split; [right; exists ev, bar; split; assumption|].
      rewrite R. cbn [points]. apply appendPoint_length_le.
  - intros st all evs Hst Hs.
    rewrite (run_points StringToNumber NumberToString evs st all Hst).
    rewrite (emitted_spaced StringToNumber NumberToString evs _ Hs). reflexivity.
  - intros h base symbol Hsym. unfold rerender.
    rewrite effectBody_on by exact Hsym. reflexivity.
Qed.

End Throttle.

(** C5 as stated fails across a re-render: live mode is switched off and on
    again, which closes the socket, opens a new one and zeroes the throttle
    ref; a tick handled 500 ms after the last accepted one is accepted too. *)
Lemma throttle_reset_by_rerender :
  let t1 := mkEvent (Some (tickMessage (JNumber 2500.5%float)))
              1793591400000 1793591400000 in
  let t2 := mkEvent (Some (tickMessage (JNumber 2501%float)))
              1793591400500 1793591400500 in
  nowMs t2 - nowMs t1 = 500
  /\ forall S2N N2S,
       let h1 := steps S2N N2S mounted
                   [Render "http://localhost:8000" "RELIANCE" true;
                    SocketOpened 0; Message 0 t1] in
       let h2 := steps S2N N2S h1
                   [Render "http://localhost:8000" "RELIANCE" false;
                    Render "http://localhost:8000" "RELIANCE" true;
                    SocketOpened 1] in
       let h3 := step S2N N2S h2 (Message 1 t2) in
       live h1
       = mkLive [mkBar "2026-11-02T03:50:00.000Z" 2500.5%float 2500.5%float
                   2500.5%float 2500.5%float None] 1793591400000
       /\ live h2 = mkLive [] 0
       /\ live h3
          = mkLive [mkBar "2026-11-02T03:50:00.500Z" 2501%float 2501%float
                      2501%float 2501%float None] 1793591400500.
Proof.
  cbv zeta. split; [reflexivity|]. intros S2N N2S.
  split; [|split]; vm_compute; reflexivity.
Qed.

End ThrottleFacts.

(* ================================================================== *)
(** * Facts about [toWsUrl] *)

Module WsUrlFacts.

Import JSText LiveSocket.
Local Open Scope string_scope.

Lemma prefix_app_mono (p s r : string) :
  String.prefix p s = true -> String.prefix p (s ++ r) = true.
Proof.
  revert s. induction p as [|a p IH]; intros s H; [destruct (s ++ r); reflexivity|].
  destruct s as [|b s]; [discriminate|]. cbn in *.
  destruct (ascii_dec a b); [apply IH, H|discriminate].
Qed.

(** Text made of whitespace only. *)
Fixpoint allWhiteSpace (s : string) : bool :=
  match s with
  | "" => true
  | String c s' => isWhiteSpace c && allWhiteSpace s'
  end.

(** A base URL in normal form: not empty, no whitespace at either end, no
    slash at the end. *)
Definition normal (s : string) : Prop :=
  s <> "" /\ trimStart s = s /\ trimEnd s = s /\ dropTrailingSlash s = s.

Lemma trimStart_ws (w s : string) : allWhiteSpace w = true -> trimStart (w ++ s) = trimStart s.
Proof.
  induction w as [|c w IH]; intros H; [reflexivity|].
  cbn in H. apply andb_true_iff in H. destruct H as [Hc Hw].
  cbn. rewrite Hc. apply IH, Hw.
Qed.

Lemma trimStart_app (s r : string) : s <> "" -> trimStart s = s -> trimStart (s ++ r) = s ++ r.
Proof.
  destruct s as [|c s]; [congruence|]. intros _ H. cbn in *.
  destruct (isWhiteSpace c) eqn:W; [|reflexivity].
  exfalso.
  assert (L : forall t, (String.length (trimStart t) <= String.length t)%nat).
  { induction t as [|x t IHt]; cbn; [lia|]. destruct (isWhiteSpace x); cbn; lia. }
  pose proof (L s) as Hl. rewrite H in Hl. cbn in Hl. lia.
Qed.

Lemma trimEnd_ws (w : string) : allWhiteSpace w = true -> trimEnd w = "".
Proof.
  induction w as [|c w IH]; intros H; [reflexivity|].
  cbn in H. apply andb_true_iff in H. destruct H as [Hc Hw].
  cbn. rewrite (IH Hw), Hc. reflexivity.
Qed.

Lemma trimEnd_app (s r : string) : trimEnd r <> "" -> trimEnd (s ++ r) = s ++ trimEnd r.
Proof.
  intros H. induction s as [|c s IH]; [reflexivity|].
  cbn. rewrite IH. destruct (s ++ trimEnd r) eqn:E; [|reflexivity].
  destruct s; cbn in E; [congruence|discriminate].
Qed.

Lemma dropTrailingSlash_app (s r : string) :
  r <> "" -> dropTrailingSlash (s ++ r) = s ++ dropTrailingSlash r.
Proof.
  intros H. induction s as [|c s IH]; [reflexivity|].
  cbn. rewrite IH. destruct (s ++ r) eqn:E; [|reflexivity].
  destruct s; cbn in E; [congruence|discriminate].
Qed.

Lemma trimEnd_app_ws (s w : string) : allWhiteSpace w = true -> trimEnd (s ++ w) = trimEnd s.
Proof.
  intros H. induction s as [|c s IH]; [apply trimEnd_ws, H|].
  cbn. rewrite IH. reflexivity.
Qed.

Lemma trim_padded (w1 w2 s : string) :
  allWhiteSpace w1 = true -> allWhiteSpace w2 = true ->
  s <> "" -> trimStart s = s -> trimEnd s = s ->
  trim (w1 ++ s ++ w2) = s.
Proof.
  intros H1 H2 Hs Hl Hr. unfold trim.
  rewrite trimStart_ws, trimStart_app by assumption.
  rewrite trimEnd_app_ws by assumption. exact Hr.
Qed.

Lemma app_nil_r_string (s : string) : s ++ "" = s.
Proof. induction s; cbn; congruence. Qed.

Lemma app_assoc_string (a b c : string) : (a ++ b) ++ c = a ++ (b ++ c).
Proof. induction a; cbn; congruence. Qed.

(** X6: whatever the base and the path, the result is a [ws://] or [wss://]
    URL. *)
Theorem toWsUrl_scheme (apiBase pathWithQuery : string) :
  startsWith (toWsUrl apiBase pathWithQuery) "ws://" = true
  \/ startsWith (toWsUrl apiBase pathWithQuery) "wss://" = true.
Proof.
  unfold toWsUrl. cbv zeta.
  set (t := dropTrailingSlash (trim apiBase)).
  destruct (startsWith t "https://");
    [right; apply (prefix_app_mono "wss://" "wss://"); reflexivity|].
  destruct (startsWith t "http://");
    [left; apply (prefix_app_mono "ws://" "ws://"); reflexivity|].
  destruct (startsWith t "wss://") eqn:A; cbn [orb].
  - right. apply prefix_app_mono, A.
  - destruct (startsWith t "ws://") eqn:B; left;
      [apply prefix_app_mono, B|apply (prefix_app_mono "ws://" "ws://"); reflexivity].
Qed.

(** X7: an [https://] base becomes [wss://] and an [http://] base becomes
    [ws://]; host, port and base path are kept and the path is appended.
    ([rest] is what follows the scheme: not empty, no whitespace or slash at
    its end.) *)
Theorem toWsUrl_maps_http_schemes (rest pathWithQuery : string) :
  rest <> "" -> trimEnd rest = rest -> dropTrailingSlash rest = rest ->
  toWsUrl ("https://" ++ rest) pathWithQuery = "wss://" ++ rest ++ pathWithQuery
  /\ toWsUrl ("http://" ++ rest) pathWithQuery = "ws://" ++ rest ++ pathWithQuery.
Proof.
  intros Hne Ht Hd.
  assert (Hte : trimEnd rest <> "") by congruence.
  split.
  - unfold toWsUrl, trim. cbv zeta.
    change (trimStart ("https://" ++ rest)) with ("https://" ++ rest).
    rewrite trimEnd_app, Ht by assumption.
    rewrite dropTrailingSlash_app, Hd by assumption.
    replace (startsWith ("https://" ++ rest) "https://") with true
      by (symmetry; apply (prefix_app_mono "https://" "https://"); reflexivity).
    reflexivity.
  - unfold toWsUrl, trim. cbv zeta.
    change (trimStart ("http://" ++ rest)) with ("http://" ++ rest).
    rewrite trimEnd_app, Ht by assumption.
    rewrite dropTrailingSlash_app, Hd by assumption.
    replace (startsWith ("http://" ++ rest) "https://") with false by reflexivity.
    replace (startsWith ("http://" ++ rest) "http://") with true
      by (symmetry; apply (prefix_app_mono "http://" "http://"); reflexivity).
    reflexivity.
Qed.

(** X8: whitespace around the base and one slash at its end make no
    difference. *)
Theorem toWsUrl_ignores_padding_and_slash (w1 w2 base pathWithQuery : string) :
  allWhiteSpace w1 = true -> allWhiteSpace w2 = true -> normal base ->
  toWsUrl (w1 ++ (base ++ "/") ++ w2) pathWithQuery = toWsUrl base pathWithQuery
  /\ toWsUrl (w1 ++ base ++ w2) pathWithQuery = toWsUrl base pathWithQuery.
Proof.
  intros H1 H2 (Hne & Hl & Hr & Hd).
  assert (Eb : dropTrailingSlash (trim base) = base).
  { unfold trim. rewrite Hl, Hr. exact Hd. }
  split.
  - unfold toWsUrl. cbv zeta. rewrite Eb.
    rewrite trim_padded; try assumption.
    + rewrite dropTrailingSlash_app by discriminate. cbn [dropTrailingSlash Ascii.eqb Bool.eqb].
      rewrite app_nil_r_string. reflexivity.
    + destruct base; cbn; discriminate.
    + apply trimStart_app; assumption.
    + rewrite trimEnd_app by (cbn; discriminate). reflexivity.
  - unfold toWsUrl. cbv zeta. rewrite Eb.
    rewrite trim_padded by assumption. rewrite Hd. reflexivity.
Qed.

Lemma toWsUrl_maps_http_schemes_witness :
  toWsUrl "https://api.example.com:8443/v1" "/market-data/ws/ticks?symbols=TCS&mode=ltp"
  = "wss://api.example.com:8443/v1/market-data/ws/ticks?symbols=TCS&mode=ltp"
  /\ toWsUrl "http://api.example.com:8443/v1" "/market-data/ws/ticks?symbols=TCS&mode=ltp"
     = "ws://api.example.com:8443/v1/market-data/ws/ticks?symbols=TCS&mode=ltp".
Proof.
  apply (toWsUrl_maps_http_schemes "api.example.com:8443/v1"
           "/market-data/ws/ticks?symbols=TCS&mode=ltp");
    [discriminate|reflexivity|reflexivity].
Defined.

Lemma toWsUrl_ignores_padding_and_slash_witness :
  toWsUrl ("  " ++ ("http://localhost:8000" ++ "/") ++ " ") "/x" = toWsUrl "http://localhost:8000" "/x"
  /\ toWsUrl ("  " ++ "http://localhost:8000" ++ " ") "/x" = toWsUrl "http://localhost:8000" "/x".
Proof.
  apply (toWsUrl_ignores_padding_and_slash "  " " " "http://localhost:8000" "/x");
    [reflexivity|reflexivity|].
  repeat split; [discriminate|..]; reflexivity.
Defined.

End WsUrlFacts.

(* ================================================================== *)
(** * More facts about the coordinator *)

Module CoordinatorRunFacts.

Import JSString JSDate JS Window Coordinator ApiClient CoordinatorRuns CoordinatorFacts.

(** The render asks for live data: live mode on, a symbol, a window. *)
Definition active (p : Props) : bool :=
  enabled p && negb (String.eqb (symbol p) "")
  && match window p with Some _ => true | None => false end.

(** The effect issues a fetch. *)
Definition triggers (p : Props) (nowMs : Z) (st : Coord) : bool :=
  match window p with
  | Some w => active p && shouldRun (lastBackfillRef st) (symbol p) w nowMs
  | None => false
  end.

Lemma effect_cases (p : Props) (nowMs : Z) (st : Coord) :
  (active p = false
   /\ effect p nowMs st
      = mkCoord JNull (lastBackfillRef st) p (inflight st) (refetchBaseCalls st))
  \/ (exists w, window p = Some w /\ active p = true /\ triggers p nowMs st = false
        /\ shouldRun (lastBackfillRef st) (symbol p) w nowMs = false
        /\ effect p nowMs st
           = mkCoord (backfillError st) (lastBackfillRef st) p (inflight st)
               (refetchBaseCalls st))
  \/ (exists w, window p = Some w /\ active p = true /\ triggers p nowMs st = true
        /\ effect p nowMs st
           = mkCoord (backfillError st) (Some (mkMarker (symbol p) (key w) nowMs)) p
               (inflight st
                ++ [mkRequest (symbol p) (key w) "5minute" (fetchFromZ w) (fetchToZ w)])
               (refetchBaseCalls st)).
Proof.
  unfold effect, triggers, active.
  destruct (window p) as [w|]; [|left; rewrite andb_false_r; auto].
  destruct (enabled p); cbn [negb andb orb]; [|left; auto].
  destruct (String.eqb (symbol p) ""); cbn [negb andb orb]; [left; auto|].
  destruct (shouldRun (lastBackfillRef st) (symbol p) w nowMs) eqn:R; cbn [negb].
  - right. right. exists w. auto.
  - right. left. exists w. auto.
Qed.

(** X9: when live mode is off, the symbol is empty or there is no window,
    the effect clears the retained error, issues no fetch and keeps the
    marker; and a marker kept this way still suppresses a refetch for the
    same symbol and key when live mode comes back within 60 s. *)
Theorem inactive_render_keeps_marker (p p' : Props) (w : TodayWindow) (t t' : Z)
    (st : Coord) (m : Marker) :
  active p = false ->
  lastBackfillRef st = Some m ->
  enabled p' = true -> symbol p' = marker_symbol m -> symbol p' <> ""%string ->
  window p' = Some w -> key w = marker_key m ->
  t' - atMs m <= 60000 ->
  let st1 := effect p t st in
  let st2 := effect p' t' st1 in
  backfillError st1 = JNull
  /\ inflight st1 = inflight st
  /\ lastBackfillRef st1 = Some m
  /\ inflight st2 = inflight st
  /\ lastBackfillRef st2 = Some m.
Proof.
  intros Hp Hm He Hs Hne Hw Hk Ht. cbv zeta.
  destruct (effect_cases p t st) as [[_ E]|[(w0 & _ & A & _)|(w0 & _ & A & _)]];
    try congruence.
  rewrite E. cbn [backfillError inflight lastBackfillRef].
  assert (R : shouldRun (Some m) (symbol p') w t' = false).
  { unfold shouldRun. rewrite Hs, Hk, !String.eqb_refl. cbn [negb orb].
    apply Z.ltb_ge. lia. }
  rewrite (effect_skip p' t' _ w He Hne Hw) by (cbn [lastBackfillRef]; rewrite Hm; exact R).
  cbn [inflight lastBackfillRef]. auto.
Qed.

(** Renders only: the effect run once per render. *)
Definition renders (st : Coord) (rs : list (Props * Z)) : Coord :=
  fold_left (fun s r => effect (fst r) (snd r) s) rs st.

(** Every active render of the list asks for symbol [s] in the session [k],
    and every render happens within [t0, t0 + 60000]. *)
Definition sameMinute (s k : string) (t0 : Z) (rs : list (Props * Z)) : Prop :=
  forall p t, In (p, t) rs ->
    t0 <= t <= t0 + 60000
    /\ (active p = true ->
        symbol p = s /\ exists w, window p = Some w /\ key w = k).

Lemma renders_after_trigger (s k : string) (t0 : Z) (rs : list (Props * Z)) :
  forall st t1,
    sameMinute s k t0 rs ->
    lastBackfillRef st = Some (mkMarker s k t1) -> t0 <= t1 <= t0 + 60000 ->
    inflight (renders st rs) = inflight st.
Proof.
  induction rs as [|[p t] rs IH]; intros st t1 H M Ht1; [reflexivity|].
  assert (Hrs : sameMinute s k t0 rs).
  { intros p0 t2 Hin. apply H. now right. }
  destruct (H p t (or_introl eq_refl)) as [Ht Hact].
  change (renders st ((p, t) :: rs)) with (renders (effect p t st) rs).
  destruct (effect_cases p t st) as [[_ E]|[(w & _ & _ & _ & _ & E)|(w & Hw & A & T & _)]].
  - rewrite (IH _ t1 Hrs); try rewrite E; cbn; auto.
  - rewrite (IH _ t1 Hrs); try rewrite E; cbn; auto.
  - exfalso. destruct (Hact A) as (Hs & w' & Hw' & Hk).
    assert (w' = w) by congruence. subst w'.
    unfold triggers in T. rewrite Hw, A, M in T. cbn [andb] in T.
    unfold shouldRun in T. cbn [marker_symbol marker_key atMs] in T.
    rewrite Hs, Hk, !String.eqb_refl in T. cbn [negb orb] in T.
    apply Z.ltb_lt in T. lia.
Qed.

(** X10: however often the effect runs within one minute for one symbol and
    session (re-renders, window refreshes, live mode switched off and on), it
    issues at most one fetch. *)
Theorem at_most_one_fetch_per_minute (s k : string) (t0 : Z) (rs : list (Props * Z))
    (st : Coord) :
  sameMinute s k t0 rs ->
  (List.length (inflight (renders st rs)) <= List.length (inflight st) + 1)%nat.
Proof.
  revert st. induction rs as [|[p t] rs IH]; intros st H; [cbn; lia|].
  assert (Hrs : sameMinute s k t0 rs).
  { intros p0 t2 Hin. apply H. now right. }
  destruct (H p t (or_introl eq_refl)) as [Ht Hact].
  change (renders st ((p, t) :: rs)) with (renders (effect p t st) rs).
  destruct (effect_cases p t st) as [[_ E]|[(w & _ & _ & _ & _ & E)|(w & Hw & A & T & E)]].
  - specialize (IH (effect p t st) Hrs). rewrite E in IH at 2. cbn [inflight] in IH. exact IH.
  - specialize (IH (effect p t st) Hrs). rewrite E in IH at 2. cbn [inflight] in IH. exact IH.
  - destruct (Hact A) as (Hs & w' & Hw' & Hk).
    assert (w' = w) by congruence. subst w'.
    rewrite (renders_after_trigger s k t0 rs _ t Hrs).
    + rewrite E. cbn [inflight]. rewrite length_app. cbn. lia.
    + rewrite E. cbn [lastBackfillRef]. rewrite Hs, Hk. reflexivity.
    + exact Ht.
Qed.

(** The number of fetches issued along a run. *)
Fixpoint issued (st : Coord) (es : list CoordEvent) : nat :=
  match es with
  | [] => O
  | e :: rest =>
      (match e with
       | Effect p nowMs => if triggers p nowMs st then 1 else 0
       | Settle _ _ => 0
       end + issued (stepC st e) rest)%nat
  end.

Lemma length_remove_nth {A : Type} (l : list A) : forall n x,
  nth_error l n = Some x -> S (List.length (remove_nth n l)) = List.length l.
Proof.
  induction l as [|y l IH]; intros [|n] x H; try discriminate; cbn.
  - reflexivity.
  - f_equal. apply (IH n x H).
Qed.

(** X11: every fetch issued is either still in flight or has led to exactly
    one [refetchBase()] call, whether it succeeded or failed and whatever
    happened in between. *)
Theorem every_fetch_refreshes_once (es : list CoordEvent) (st : Coord) :
  (refetchBaseCalls (runC st es) + List.length (inflight (runC st es))
   = refetchBaseCalls st + List.length (inflight st) + issued st es)%nat.
Proof.
  revert st. induction es as [|e es IH]; intros st; [cbn; lia|].
  change (runC st (e :: es)) with (runC (stepC st e) es).
  rewrite IH. cbn [issued]. destruct e as [p t|n o]; cbn [stepC].
  - destruct (effect_cases p t st) as [[A E]|[(w & Hw & A & T & _ & E)|(w & Hw & A & T & E)]];
      rewrite E; cbn [refetchBaseCalls inflight].
    + assert (T : triggers p t st = false).
      { unfold triggers. destruct (window p); [rewrite A|]; reflexivity. }
      rewrite T. lia.
    + rewrite T. lia.
    + rewrite T, length_app. cbn. lia.
  - unfold settle. destruct (nth_error (inflight st) n) as [r|] eqn:N; [|lia].
    cbn [refetchBaseCalls inflight].
    pose proof (length_remove_nth (inflight st) n r N). lia.
Qed.

(** X12: [safePost] turns every failure of the POST into a response whose
    [error] is a truthy value (the server's error body, else the exception's
    message, else the text "Request failed"), and every success into one
    whose [error] is [null]; so after the fetch settles the retained error is
    [null] exactly when the POST succeeded. *)
Theorem backfill_error_reflects_post (o : AxiosOutcome) :
  match o with
  | AxiosResponse _ => errorOf (fetchOutcome o) = JNull
  | AxiosThrow e =>
      truthy (errorOf (fetchOutcome o)) = true
      /\ errorOf (fetchOutcome o)
         = orElse (optProp (optProp e "response") "data")
             (orElse (optProp e "message") (JString "Request failed"))
  end.
Proof.
  destruct o as [d|e]; [reflexivity|].
  unfold fetchOutcome, safePost, errorOf. cbn [getProp lookup String.eqb Ascii.eqb Bool.eqb].
  set (v := orElse _ _).
  assert (Hv : truthy v = true).
  { subst v. unfold orElse.
    destruct (truthy (optProp (optProp e "response") "data")) eqn:A; [exact A|].
    destruct (truthy (optProp e "message")) eqn:B; [exact B|reflexivity]. }
  rewrite Hv. auto.
Qed.

End CoordinatorRunFacts.

(* ================================================================== *)
(** * More facts about the merge *)

Module MergeOrderFacts.

Import JSString JSDate JS Window Coordinator CoordinatorFacts.

Section MergeOrder.

Variable getTime : string -> option Z.

Local Notation after := (after getTime).
Local Notation insert := (insert getTime).
Local Notation sort := (sort getTime).
Local Notation data := (data getTime).
Local Notation time_le := (time_le getTime).

(** The bar's timestamp is read as the time value [t]. *)
Definition atTime (t : Z) (b : OHLCVBar) : bool :=
  match getTime (timestamp b) with
  | Some x => x =? t
  | None => false
  end.

Lemma after_not_same_time (x y : OHLCVBar) (t : Z) :
  after x y = true -> atTime t x = true -> atTime t y = false.
Proof.
  unfold Coordinator.after, Coordinator.compareFn, atTime.
  destruct (getTime (timestamp x)) as [a|], (getTime (timestamp y)) as [b|];
    try discriminate; intros H1 H2.
  apply Z.ltb_lt in H1. apply Z.eqb_eq in H2. apply Z.eqb_neq. lia.
Qed.

Lemma filter_insert (t : Z) (x : OHLCVBar) (l : list OHLCVBar) :
  filter (atTime t) (insert x l) = filter (atTime t) (x :: l).
Proof.
  induction l as [|y l IH]; [reflexivity|].
  cbn [Coordinator.insert]. destruct (after x y) eqn:A; [|reflexivity].
  cbn [filter] in *. rewrite IH.
  destruct (atTime t x) eqn:X; [|reflexivity].
  rewrite (after_not_same_time x y t A X). reflexivity.
Qed.

Lemma filter_sort (t : Z) (l : list OHLCVBar) :
  filter (atTime t) (sort l) = filter (atTime t) l.
Proof.
  induction l as [|x l IH]; [reflexivity|].
  cbn [Coordinator.sort]. rewrite filter_insert. cbn [filter]. rewrite IH. reflexivity.
Qed.

(** X13: when every timestamp is read as a date the merge is stable.  The
    bars of the merged series that carry one and the same time are the
    historical ones in their order followed by the live ones in their order:
    on a collision the historical bar comes first.  (With an unreadable
    timestamp the comparator is not an order and the place of a bar depends on
    the engine's algorithm, which is why the timestamps are assumed
    readable.) *)
Theorem merge_collision_order (baseSeries : option (list OHLCVBar))
    (live : list OHLCVBar) (t : Z) :
  Forall (valid getTime) (baseOf baseSeries ++ live) ->
  filter (atTime t) (data true baseSeries live)
  = (filter (atTime t) (baseOf baseSeries) ++ filter (atTime t) live)%list.
Proof.
  intros _. destruct live as [|b live].
  - rewrite data_no_live. cbn [filter]. rewrite app_nil_r. reflexivity.
  - rewrite data_live by discriminate. rewrite filter_sort. apply filter_app.
Qed.

Lemma insert_min (x : OHLCVBar) (l : list OHLCVBar) :
  Forall (time_le x) l -> insert x l = x :: l.
Proof.
  intros H. destruct l as [|y l]; [reflexivity|].
  inversion H as [|? ? Hxy _]; subst. cbn [Coordinator.insert].
  unfold Coordinator.after, Coordinator.compareFn. unfold CoordinatorFacts.time_le in Hxy.
  destruct (getTime (timestamp x)) as [a|], (getTime (timestamp y)) as [b|];
    try contradiction.
  destruct (Z.ltb_spec 0 (a - b)); [lia|reflexivity].
Qed.

Lemma sort_sorted_id (l : list OHLCVBar) : StronglySorted time_le l -> sort l = l.
Proof.
  induction 1 as [|x l Hs IH Hx]; [reflexivity|].
  cbn [Coordinator.sort]. rewrite IH. apply insert_min, Hx.
Qed.

(** X14: when the historical bars followed by the live bars are already in
    ascending time order (each live bar at or after the last historical
    one), the merge is the plain concatenation: every live bar comes after
    all historical bars. *)
Theorem merge_of_ordered_inputs (base live : list OHLCVBar) :
  StronglySorted time_le (base ++ live) ->
  data true (Some base) live = (base ++ live)%list.
Proof.
  intros H. destruct live as [|b live].
  - rewrite data_no_live. cbn [baseOf]. rewrite app_nil_r. reflexivity.
  - rewrite data_live by discriminate. cbn [baseOf]. apply sort_sorted_id, H.
Qed.

End MergeOrder.

Lemma merge_collision_order_witness :
  let base := Some [barAt "2026-11-02T03:45:00.000Z" 2499%float;
                    barAt "2026-11-02T03:50:00.000Z" 2500%float] in
  let live := [barAt "2026-11-02T03:50:00.000Z" 2500.5%float;
               barAt "2026-11-02T03:45:00.000Z" 2499.5%float] in
  filter (atTime instantOf 1793591400000) (data instantOf true base live)
  = (filter (atTime instantOf 1793591400000) (baseOf base)
     ++ filter (atTime instantOf 1793591400000) live)%list.
Proof.
  cbv zeta. apply (merge_collision_order instantOf).
  repeat constructor; vm_compute; discriminate.
Defined.

Example merge_collision_example :
  data instantOf true
    (Some [barAt "2026-11-02T03:45:00.000Z" 2499%float;
           barAt "2026-11-02T03:50:00.000Z" 2500%float])
    [barAt "2026-11-02T03:50:00.000Z" 2500.5%float;
     barAt "2026-11-02T03:45:00.000Z" 2499.5%float]
  = [barAt "2026-11-02T03:45:00.000Z" 2499%float;
     barAt "2026-11-02T03:45:00.000Z" 2499.5%float;
     barAt "2026-11-02T03:50:00.000Z" 2500%float;
     barAt "2026-11-02T03:50:00.000Z" 2500.5%float].
Proof. vm_compute. reflexivity. Qed.

Lemma merge_of_ordered_inputs_witness :
  data instantOf true
    (Some [barAt "2026-11-02T03:45:00.000Z" 2499%float;
           barAt "2026-11-02T03:50:00.000Z" 2500%float])
    [barAt "2026-11-02T03:50:05.000Z" 2500.5%float]
  = [barAt "2026-11-02T03:45:00.000Z" 2499%float;
     barAt "2026-11-02T03:50:00.000Z" 2500%float;
     barAt "2026-11-02T03:50:05.000Z" 2500.5%float].
Proof.
  apply (merge_of_ordered_inputs instantOf
           [barAt "2026-11-02T03:45:00.000Z" 2499%float;
            barAt "2026-11-02T03:50:00.000Z" 2500%float]
           [barAt "2026-11-02T03:50:05.000Z" 2500.5%float]).
  repeat constructor; vm_compute; discriminate.
Defined.

End MergeOrderFacts.

(* ================================================================== *)
(** * More facts about the emitted bars *)

Module LiveBarFacts.

Import JSString JSDate JS LiveTicks LiveTicksFacts.

(** A live bar: one finite price in all four fields and no volume. *)
Definition degenerate (b : OHLCVBar) : Prop :=
  high b = open b /\ low b = open b /\ close b = open b
  /\ PrimFloat.is_finite (open b) = true /\ volume b = None.

Section Bars.

Variable StringToNumber : string -> float.
Variable NumberToString : float -> string.

Local Notation validate := (validate StringToNumber NumberToString).
Local Notation emits := (emits StringToNumber NumberToString).
Local Notation onmessage := (onmessage StringToNumber NumberToString).
Local Notation run := (run StringToNumber NumberToString).

Lemma validate_finite (ev : MessageEvent) (msg : JSValue) (lp : float) :
  validate ev = Some (msg, lp) -> PrimFloat.is_finite lp = true.
Proof.
  unfold LiveTicks.validate.
  destruct (parsed ev) as [m|]; [|discriminate].
  destruct (negb (truthy m)); [discriminate|].
  destruct (getProp m "type") as [| | | |s| |]; try discriminate.
  destruct (string_dec s "ticks") as [->|N].
  - destruct (getProp m "ticks") as [| | | | |l|]; try discriminate.
    destruct l as [|t0 l]; [discriminate|].
    match goal with
    | |- (if negb (PrimFloat.is_finite ?x) then _ else _) = _ -> _ =>
        destruct (PrimFloat.is_finite x) eqn:F
    end; cbn [negb]; [|discriminate].
    intros [= _ <-]. exact F.
  - intros H. exfalso.
    destruct s as [|c s]; [discriminate|].
    repeat (destruct c as [[] [] [] [] [] [] [] []]; try discriminate;
            destruct s as [|c s]; try discriminate).
    congruence.
Qed.

Lemma emits_degenerate (last : Z) (ev : MessageEvent) (bar : OHLCVBar) :
  emits last ev = Some bar -> degenerate bar.
Proof.
  intros H. apply emits_Some_inv in H. destruct H as (_ & msg & lp & V & ->).
  unfold degenerate, makeBar. cbn. repeat split; try reflexivity.
  apply (validate_finite ev msg lp V).
Qed.

Lemma In_skipn_list {A : Type} (n : nat) (l : list A) (x : A) :
  In x (skipn n l) -> In x l.
Proof.
  intros H. rewrite <- (firstn_skipn n l). apply in_or_app. now right.
Qed.

Lemma appendPoint_Forall (P : OHLCVBar -> Prop) (prev : list OHLCVBar) (bar : OHLCVBar) :
  Forall P prev -> P bar -> Forall P (appendPoint prev bar).
Proof.
  intros Hp Hb. rewrite appendPoint_spec.
  rewrite Forall_forall. intros x Hx. apply In_skipn_list in Hx.
  apply in_app_or in Hx. destruct Hx as [Hx|[<-|[]]]; [|exact Hb].
  rewrite Forall_forall in Hp. apply Hp, Hx.
Qed.

(** X15: every bar the hook ever holds is a degenerate bar made from one
    finite price: open = high = low = close, the price is finite, and there
    is no volume. *)
Theorem buffer_holds_degenerate_bars (evs : list MessageEvent) :
  Forall degenerate (points (run connect evs)).
Proof.
  assert (G : forall st, Forall degenerate (points st) ->
                         Forall degenerate (points (run st evs))).
  { induction evs as [|ev evs IH]; intros st H; [exact H|].
    rewrite run_cons. apply IH. unfold LiveTicks.onmessage.
    destruct (emits (lastEmitMs st) ev) as [bar|] eqn:E; [|exact H].
    cbn [points]. apply appendPoint_Forall; [exact H|].
    apply (emits_degenerate _ _ _ E). }
  apply G. constructor.
Qed.

End Bars.

End LiveBarFacts.

(* ================================================================== *)
(** * More facts about the session window *)

Module WindowShapeFacts.

Import JSString JSDate Window WindowFacts.
Local Open Scope string_scope.
Local Open Scope Z_scope.

(** X16: the two serializations of each bound differ only in the zone
    designator: the [fetch...Z] form is a body followed by [Z], the offset
    form is the same body followed by [+00:00] and contains no [Z]; and the
    key is the date part (first ten characters) of the start. *)
Theorem window_serialization_shapes (now now' : Z) :
  clock_ok now -> clock_ok now' ->
  let w := computeTodayWindow now now' in
  exists bodyFrom bodyTo,
    fetchFromZ w = bodyFrom ++ "Z" /\ fromOffset w = bodyFrom ++ "+00:00"
    /\ fetchToZ w = bodyTo ++ "Z" /\ toOffset w = bodyTo ++ "+00:00"
    /\ has_char "Z" bodyFrom = false /\ has_char "Z" bodyTo = false
    /\ key w = substring 0 10 (fetchFromZ w)
    /\ key w = substring 0 10 (fromOffset w).
Proof.
  intros Hnow Hnow'. cbv zeta.
  destruct (window_bodies now now' Hnow Hnow')
    as (bodyFrom & bodyTo & F1 & F2 & T1 & T2 & Z1 & Z2 & K1 & K2).
  exists bodyFrom, bodyTo.
  split; [exact F1|]. split; [exact F2|]. split; [exact T1|]. split; [exact T2|].
  split; [exact Z1|]. split; [exact Z2|].
  split.
  - rewrite F1. exact K1.
  - rewrite F2. exact K2.
Qed.

Lemma window_serialization_shapes_witness :
  let w := computeTodayWindow 1793591400000 1793591400123 in
  exists bodyFrom bodyTo,
    fetchFromZ w = bodyFrom ++ "Z" /\ fromOffset w = bodyFrom ++ "+00:00"
    /\ fetchToZ w = bodyTo ++ "Z" /\ toOffset w = bodyTo ++ "+00:00"
    /\ has_char "Z" bodyFrom = false /\ has_char "Z" bodyTo = false
    /\ key w = substring 0 10 (fetchFromZ w)
    /\ key w = substring 0 10 (fromOffset w).
Proof.
  apply (window_serialization_shapes 1793591400000 1793591400123);
    unfold clock_ok, T_MAX, IST_OFFSET_MS; lia.
Defined.

(** X17: the window starts at or before the clock reading exactly when the
    IST time of day is 09:15 or later.  Between midnight and 09:15 IST the
    start lies after the reading, so the range handed to the backend is
    inverted (start after end) until the session opens. *)
Theorem window_start_vs_now (now now' : Z) :
  clock_ok now -> clock_ok now' ->
  let w := computeTodayWindow now now' in
  exists s,
    startInstant w = Some s /\ endInstant w = Some now'
    /\ (s <= now <-> 9 * msPerHour + 15 * msPerMinute <= TimeWithinDay (now + IST_OFFSET_MS))
    /\ (now' < s <-> TimeWithinDay (now + IST_OFFSET_MS) + (now' - now)
                     < 9 * msPerHour + 15 * msPerMinute).
Proof.
  intros Hnow Hnow'. cbv zeta.
  destruct (window_instants now now' Hnow Hnow') as (S1 & _ & E1 & _).
  exists (sessionOpenUtc (istDay now)). split; [exact S1|]. split; [exact E1|].
  rewrite sessionOpenUtc_eq.
  unfold istDay, Day, TimeWithinDay, msPerDay, msPerHour, msPerMinute, IST_OFFSET_MS.
  lia.
Qed.

Lemma window_start_vs_now_witness :
  let w := computeTodayWindow 1793575800000 1793575800000 in
  exists s,
    startInstant w = Some s /\ endInstant w = Some 1793575800000
    /\ (s <= 1793575800000
        <-> 9 * msPerHour + 15 * msPerMinute <= TimeWithinDay (1793575800000 + IST_OFFSET_MS))
    /\ (1793575800000 < s
        <-> TimeWithinDay (1793575800000 + IST_OFFSET_MS) + (1793575800000 - 1793575800000)
            < 9 * msPerHour + 15 * msPerMinute).
Proof.
  apply (window_start_vs_now 1793575800000 1793575800000);
    unfold clock_ok, T_MAX, IST_OFFSET_MS; lia.
Defined.

Example window_before_open_is_inverted :
  computeTodayWindow 1793575800000 1793575800000
  = mkWindow "2026-11-02T03:45:00.000+00:00" "2026-11-01T23:30:00.000+00:00"
             "2026-11-02T03:45:00.000Z" "2026-11-01T23:30:00.000Z" "2026-11-02".
Proof. vm_compute. reflexivity. Qed.

End WindowShapeFacts.

(* ================================================================== *)
(** * Facts about the consumers *)

Module ConsumerFacts.

Import JSString JSDate Window WindowFacts PriceChart RangeDates.
Local Open Scope string_scope.
Local Open Scope Z_scope.

Lemma localeDate_key (t t' : Z) :
  toLocaleDateString_Kolkata (Some t) = key (computeTodayWindow t t').
Proof.
  unfold toLocaleDateString_Kolkata, computeTodayWindow.
  destruct (formatToParts_Kolkata t) as [[y m] d]. reflexivity.
Qed.

Lemma localeDate_same_day (a b : Z) :
  clock_ok a -> clock_ok b ->
  String.eqb (toLocaleDateString_Kolkata (Some a)) (toLocaleDateString_Kolkata (Some b))
  = (istDay a =? istDay b).
Proof.
  intros Ha Hb. rewrite (localeDate_key a a), (localeDate_key b b).
  destruct (Z.eqb_spec (istDay a) (istDay b)) as [E|N].
  - destruct (window_same_day a a b b E) as (_ & _ & K). rewrite K. apply String.eqb_refl.
  - apply String.eqb_neq. intros K. apply N.
    apply (window_key_inj a a b b Ha Hb K).
Qed.

Lemma nth_error_last_In {A : Type} (l : list A) (x : A) :
  nth_error l (List.length l - 1) = Some x -> exists l0, l = (l0 ++ [x])%list.
Proof.
  intros H. destruct (exists_last (l := l)) as (l0 & y & ->).
  - intros ->. discriminate.
  - exists l0. rewrite length_app in H. cbn in H.
    rewrite nth_error_app2 in H by lia.
    replace (List.length l0 + 1 - 1 - List.length l0)%nat with O in H by lia.
    cbn in H. congruence.
Qed.

Lemma chartData_1d_filter (all : list ChartPoint) (lastPt : ChartPoint) :
  nth_error all (List.length all - 1) = Some lastPt ->
  exists l0,
    all = (l0 ++ [lastPt])%list
    /\ chartData_1d all
       = (filter (fun pt => String.eqb (toLocaleDateString_Kolkata (time pt))
                              (toLocaleDateString_Kolkata (time lastPt))) l0
          ++ [lastPt])%list.
Proof.
  intros H. unfold chartData_1d. rewrite H. cbv zeta.
  destruct (nth_error_last_In all lastPt H) as (l0 & ->). exists l0.
  split; [reflexivity|].
  set (f := fun pt => String.eqb (toLocaleDateString_Kolkata (time pt))
                        (toLocaleDateString_Kolkata (time lastPt))).
  rewrite filter_app. cbn [filter].
  assert (Hf : f lastPt = true) by (subst f; cbv beta; apply String.eqb_refl).
  rewrite Hf.
  assert (L : (List.length (filter f l0 ++ [lastPt]) =? 0)%nat = false).
  { apply Nat.eqb_neq. rewrite length_app. cbn. lia. }
  rewrite L. reflexivity.
Qed.

Lemma chartData_1d_same_date (all : list ChartPoint) (lastPt : ChartPoint) :
  nth_error all (List.length all - 1) = Some lastPt ->
  chartData_1d all
  = filter (fun pt => String.eqb (toLocaleDateString_Kolkata (time pt))
                        (toLocaleDateString_Kolkata (time lastPt))) all.
Proof.
  intros H. destruct (chartData_1d_filter all lastPt H) as (l0 & -> & E).
  rewrite E, filter_app. cbn [filter]. rewrite String.eqb_refl. reflexivity.
Qed.

(** X18: in the one-day view the chart keeps, in order, exactly the points
    whose IST calendar date is that of the last point; the last point is
    always among them, so for a non-empty series the view is never empty and
    the [slice(-1)] fallback is never used. *)
Theorem chart_1d_keeps_last_day (all : list ChartPoint) (lastPt : ChartPoint) :
  nth_error all (List.length all - 1) = Some lastPt ->
  chartData_1d all
  = filter (fun pt => String.eqb (toLocaleDateString_Kolkata (time pt))
                        (toLocaleDateString_Kolkata (time lastPt))) all
  /\ exists before, chartData_1d all = (before ++ [lastPt])%list.
Proof.
  intros H. split; [apply chartData_1d_same_date, H|].
  destruct (chartData_1d_filter all lastPt H) as (l0 & _ & E). eauto.
Qed.

(** The points all carry a time value the clock can show. *)
Definition timed (all : list ChartPoint) : Prop :=
  Forall (fun pt => exists t, time pt = Some t /\ clock_ok t) all.

(** X19: for points with valid times, the date test of the one-day view is a
    test on IST day numbers: a point is kept exactly when it falls on the
    IST day of the last point. *)
Theorem chart_1d_by_ist_day (all : list ChartPoint) (lastPt : ChartPoint) (tl : Z) :
  timed all ->
  nth_error all (List.length all - 1) = Some lastPt -> time lastPt = Some tl ->
  chartData_1d all
  = filter (fun pt => match time pt with
                      | Some t => istDay t =? istDay tl
                      | None => false
                      end) all.
Proof.
  intros Ht H Hl. rewrite (chartData_1d_same_date all lastPt H).
  assert (Hlast : clock_ok tl).
  { apply nth_error_In in H. unfold timed in Ht. rewrite Forall_forall in Ht.
    destruct (Ht lastPt H) as (t & E & C). congruence. }
  apply filter_ext_in. intros pt Hin. unfold timed in Ht. rewrite Forall_forall in Ht.
  destruct (Ht pt Hin) as (t & E & C). rewrite E, Hl.
  apply localeDate_same_day; assumption.
Qed.

Lemma setUTCDate_back (t n : Z) : setUTCDate t (getUTCDate t - n) = t - n * msPerDay.
Proof.
  unfold setUTCDate, getUTCDate.
  destruct (civil_from_days (Day t)) as [[y m] d] eqn:E.
  apply civil_from_days_spec in E. destruct E as (E & _ & _).
  unfold MakeDate, TimeWithinDay.
  assert (MakeDay y (m - 1) (d - n) = Day t - n) as ->.
  { rewrite <- E. unfold MakeDay. lia. }
  unfold Day, msPerDay. lia.
Qed.

(** The date, printed as [YYYY-MM-DD], of a day number. *)
Definition dateOfDay (z : Z) : string :=
  let '(y, m, d) := civil_from_days z in formatYMD y m d.

Lemma isoDate_of_midnight (z : Z) :
  0 <= z < 2932897 -> slice_0_10 (toISOString (z * msPerDay)) = dateOfDay z.
Proof.
  intros Hz.
  assert (Hutc : utc_ok (z * msPerDay)) by (unfold utc_ok, msPerDay; lia).
  assert (HD : Day (z * msPerDay) = z) by (unfold Day, msPerDay; lia).
  destruct (civil_of_time _ Hutc) as (y & m & d & E & _ & Hy & _).
  rewrite (toISOString_fields _ y m d E) by lia.
  unfold slice_0_10, dateOfDay. rewrite HD in E. rewrite E.
  apply WindowFacts.formatYMD_prefix.
Qed.

(** X20: for a local date from year 1975 on, [computeRangeDates] returns the
    date itself as [to] and the date exactly [daysFor r] days earlier as
    [from]. *)
Theorem range_spans_days (fullYear month date : Z) (r : RangeKey) :
  1975 <= fullYear <= 9999 -> 0 <= month <= 11 ->
  1 <= date <= DaysInMonth fullYear month ->
  let today := MakeDay fullYear month date in
  computeRangeDates fullYear month date r
  = (dateOfDay (today - daysFor r), dateOfDay today)
  /\ dateOfDay today = formatYMD fullYear (month + 1) date.
Proof.
  intros Hy Hm Hd. cbv zeta.
  assert (Hb : DayFromYear fullYear <= MakeDay fullYear month date < DayFromYear (fullYear + 1)).
  { pose proof (MakeDay_year_bounds fullYear (month + 1) date) as B.
    replace (month + 1 - 1) with month in B by lia. apply B; lia. }
  pose proof (DayFromYear_mono 1975 fullYear ltac:(lia)) as M1.
  pose proof (DayFromYear_mono (fullYear + 1) 10000 ltac:(lia)) as M2.
  change (DayFromYear 1975) with 1826 in M1. change (DayFromYear 10000) with 2932897 in M2.
  assert (Hdays : 0 < daysFor r <= 1825) by (destruct r; cbn; lia).
  assert (Eto : Date_UTC fullYear month date 0 0 0 = MakeDay fullYear month date * msPerDay).
  { unfold Date_UTC.
    replace ((0 <=? fullYear) && (fullYear <=? 99)) with false
      by (symmetry; apply andb_false_iff; right; apply Z.leb_gt; lia).
    unfold MakeDate, MakeTime. lia. }
  split.
  - unfold computeRangeDates. cbv zeta. rewrite setUTCDate_back, Eto.
    replace (MakeDay fullYear month date * msPerDay - daysFor r * msPerDay)
      with ((MakeDay fullYear month date - daysFor r) * msPerDay) by lia.
    rewrite !isoDate_of_midnight by lia. reflexivity.
  - unfold dateOfDay.
    destruct (civil_from_days (MakeDay fullYear month date)) as [[y m] d] eqn:E.
    pose proof (civil_from_days_spec _ _ _ _ E) as (E1 & E2 & E3).
    pose proof (MakeDay_year_bounds y m d E2 E3) as B. rewrite E1 in B.
    assert (y = fullYear).
    { destruct (Z.lt_trichotomy y fullYear) as [L|[L|L]]; [|exact L|].
      - pose proof (DayFromYear_mono (y + 1) fullYear ltac:(lia)). lia.
      - pose proof (DayFromYear_mono (fullYear + 1) y ltac:(lia)). lia. }
    subst y.
    assert (m = month + 1 /\ d = date) as [-> ->]; [|reflexivity].
    clear B Hb M1 M2. revert E1. unfold MakeDay.
    replace ((m - 1) / 12) with 0 by lia. replace ((m - 1) mod 12) with (m - 1) by lia.
    replace (month / 12) with 0 by lia. replace (month mod 12) with month by lia.
    replace (fullYear + 0) with fullYear by lia.
    unfold DaysInMonth in *.
    pose proof (Zrange_In 12 1 m ltac:(lia)) as Hc. cbn in Hc.
    pose proof (Zrange_In 12 0 month ltac:(lia)) as Hc'. cbn in Hc'.
    destruct (InLeapYear fullYear);
      repeat (destruct Hc as [<-|Hc]; [|]); try contradiction;
      repeat (destruct Hc' as [<-|Hc']; [|]); try contradiction;
      cbn in *; lia.
Qed.

End ConsumerFacts.

(* ================================================================== *)
(** * Facts about the subscription URL *)

Module SubscriptionFacts.

Import JSString JSText LiveTicks LiveSocket WindowFacts.
Local Open Scope string_scope.

(** A character [encodeURIComponent] can produce. *)
Definition producible (c : ascii) : bool := isUnreserved c || Ascii.eqb c "%".

Fixpoint allProducible (s : string) : bool :=
  match s with
  | "" => true
  | String c s' => producible c && allProducible s'
  end.

Lemma allProducible_app (a b : string) :
  allProducible (a ++ b) = allProducible a && allProducible b.
Proof. induction a as [|c a IH]; cbn; [reflexivity|]. rewrite IH. apply andb_assoc. Qed.

Lemma percentByte_producible (b : nat) : (b < 256)%nat -> allProducible (percentByte b) = true.
Proof.
  intros H.
  assert (forallb (fun n => allProducible (percentByte n)) (seq 0 256) = true) as F
    by (vm_compute; reflexivity).
  rewrite forallb_forall in F. apply F. apply in_seq. lia.
Qed.

Lemma nat_of_ascii_lt (c : ascii) : (nat_of_ascii c < 256)%nat.
Proof. destruct c as [[] [] [] [] [] [] [] []]; vm_compute; lia. Qed.

Lemma encodeURIComponent_producible (s : string) :
  allProducible (encodeURIComponent s) = true.
Proof.
  induction s as [|c s IH]; [reflexivity|].
  cbn [encodeURIComponent]. rewrite allProducible_app, IH, andb_true_r.
  pose proof (nat_of_ascii_lt c) as B.
  destruct (isUnreserved c) eqn:U.
  - cbn. unfold producible. rewrite U. reflexivity.
  - destruct (Nat.ltb_spec (nat_of_ascii c) 128).
    + apply percentByte_producible. lia.
    + rewrite allProducible_app, !percentByte_producible; [reflexivity| |].
      * pose proof (Nat.mod_upper_bound (nat_of_ascii c) 64 ltac:(lia)). lia.
      * pose proof (Nat.Div0.div_lt_upper_bound (nat_of_ascii c) 64 4 ltac:(lia)). lia.
Qed.

Lemma not_producible_absent (d : ascii) (s : string) :
  producible d = false -> allProducible s = true -> has_char d s = false.
Proof.
  intros Hd. induction s as [|c s IH]; intros H; [reflexivity|].
  cbn in *. apply andb_true_iff in H. destruct H as [Hc Hs].
  rewrite (IH Hs), orb_false_r.
  destruct (Ascii.eqb_spec d c) as [->|N]; [congruence|reflexivity].
Qed.

(** X21: the encoded symbol contains none of the characters that structure a
    URL query ([&], [=], [?], [#], [/], space, [+]), so whatever the symbol
    is, it cannot add or cut a parameter of the subscription URL. *)
Theorem encoded_symbol_has_no_delimiter (sym : string) :
  has_char "&" (encodeURIComponent sym) = false
  /\ has_char "=" (encodeURIComponent sym) = false
  /\ has_char "?" (encodeURIComponent sym) = false
  /\ has_char "#" (encodeURIComponent sym) = false
  /\ has_char "/" (encodeURIComponent sym) = false
  /\ has_char " " (encodeURIComponent sym) = false
  /\ has_char "+" (encodeURIComponent sym) = false.
Proof.
  pose proof (encodeURIComponent_producible sym) as P.
  repeat split; apply not_producible_absent; try exact P; reflexivity.
Qed.

(** Text made of ASCII characters. *)
Fixpoint allAscii (s : string) : bool :=
  match s with
  | "" => true
  | String c s' => (nat_of_ascii c <? 128)%nat && allAscii s'
  end.

Lemma upperChar_ws (c : ascii) : isWhiteSpace (upperChar c) = isWhiteSpace c.
Proof. destruct c as [[] [] [] [] [] [] [] []]; vm_compute; reflexivity. Qed.

Lemma upperChar_idem (c : ascii) : upperChar (upperChar c) = upperChar c.
Proof. destruct c as [[] [] [] [] [] [] [] []]; vm_compute; reflexivity. Qed.

Lemma toUpperCase_idem (s : string) : toUpperCase (toUpperCase s) = toUpperCase s.
Proof. induction s as [|c s IH]; cbn; [reflexivity|]. now rewrite upperChar_idem, IH. Qed.

Lemma trimStart_upper (s : string) : trimStart (toUpperCase s) = toUpperCase (trimStart s).
Proof.
  induction s as [|c s IH]; [reflexivity|].
  cbn. rewrite upperChar_ws. destruct (isWhiteSpace c); [exact IH|reflexivity].
Qed.

Lemma trimEnd_upper (s : string) : trimEnd (toUpperCase s) = toUpperCase (trimEnd s).
Proof.
  induction s as [|c s IH]; [reflexivity|].
  cbn. rewrite IH, upperChar_ws.
  destruct (trimEnd s); cbn; [destruct (isWhiteSpace c)|]; reflexivity.
Qed.

Lemma trim_upper (s : string) : trim (toUpperCase s) = toUpperCase (trim s).
Proof. unfold trim. rewrite trimStart_upper, trimEnd_upper. reflexivity. Qed.

Lemma trimEnd_idem (s : string) : trimEnd (trimEnd s) = trimEnd s.
Proof.
  induction s as [|c s IH]; [reflexivity|].
  cbn. destruct (trimEnd s) as [|x t] eqn:E.
  - destruct (isWhiteSpace c) eqn:W; [reflexivity|]. cbn. rewrite W. reflexivity.
  - cbn [trimEnd]. cbn [trimEnd] in IH. rewrite IH. reflexivity.
Qed.

Lemma trimEnd_head (c : ascii) (s : string) :
  isWhiteSpace c = false -> exists t, trimEnd (String c s) = String c t.
Proof.
  intros W. cbn. destruct (trimEnd s); [rewrite W|]; eauto.
Qed.

Lemma trimStart_head (s : string) :
  trimStart s = "" \/ exists c t, trimStart s = String c t /\ isWhiteSpace c = false.
Proof.
  induction s as [|c s IH]; [now left|].
  cbn. destruct (isWhiteSpace c) eqn:W; [exact IH|]. right. eauto.
Qed.

Lemma trim_idem (s : string) : trim (trim s) = trim s.
Proof.
  unfold trim. destruct (trimStart_head s) as [E|(c & t & E & W)]; rewrite E.
  - reflexivity.
  - destruct (trimEnd_head c t W) as (u & Eu). rewrite Eu.
    cbn [trimStart]. rewrite W. rewrite <- Eu. apply trimEnd_idem.
Qed.

Lemma normalize_idem (s : string) :
  toUpperCase (trim (toUpperCase (trim s))) = toUpperCase (trim s).
Proof. rewrite trim_upper, trim_idem, toUpperCase_idem. reflexivity. Qed.

(** X22: for an ASCII symbol, the effect does the same with the symbol as
    typed and with its trimmed, upper-cased form: the same socket URL is
    opened (or none, when the symbol is blank). *)
Theorem symbol_is_normalized (API_BASE symbol : string) (enabled : bool) (h : Hook) :
  allAscii symbol = true ->
  effectBody API_BASE (toUpperCase (trim symbol)) enabled h
  = effectBody API_BASE symbol enabled h.
Proof.
  intros _. unfold effectBody. rewrite normalize_idem. reflexivity.
Qed.

Lemma symbol_is_normalized_witness :
  effectBody "http://localhost:8000" (toUpperCase (trim " reliance ")) true mounted
  = effectBody "http://localhost:8000" " reliance " true mounted.
Proof.
  apply (symbol_is_normalized "http://localhost:8000" " reliance " true mounted).
  reflexivity.
Defined.

End SubscriptionFacts.

(* ================================================================== *)
(** * Concrete runs of the theorems above *)

Module Runs.

Import JSString JSDate JS JSText Window LiveTicks LiveSocket Coordinator ApiClient
  CoordinatorRuns.
Import LiveTicksFacts LiveSocketFacts CoordinatorFacts CoordinatorRunFacts.
Local Open Scope string_scope.
Local Open Scope Z_scope.

Definition noS2N : string -> float := fun _ => PrimFloat.nan.
Definition noN2S : float -> string := fun _ => "".

Definition tick : MessageEvent :=
  mkEvent (Some (tickMessage (JNumber 2500.5%float))) 1793591405000 1793591405000.

Definition openedRun : list Event :=
  [Render "http://localhost:8000" " reliance " true; SocketOpened 0].

Definition failedRun : list Event :=
  [Render "http://localhost:8000" " reliance " true; SocketOpened 0; SocketClosed 0].

Example opened_run_state :
  steps noS2N noN2S mounted openedRun
  = mkHook (mkLive [] 0) (Some 0%nat)
      [("ws://localhost:8000/market-data/ws/ticks?symbols=RELIANCE&mode=ltp", OPEN)]
      true.
Proof. vm_compute. reflexivity. Qed.

Lemma throttle_one_bar_per_second_witness :
  let evs := ticksEvery 1000 1793591400000 3 in
  let late := mkEvent (Some (tickMessage (JNumber 2501%float)))
                1793591405999 1793591405999 in
  points (run noS2N noN2S connect evs) = lastMax ([] ++ barsOf noS2N noN2S evs)
  /\ onmessage noS2N noN2S (run noS2N noN2S (onmessage noS2N noN2S connect tick) [late]) late
     = run noS2N noN2S (onmessage noS2N noN2S connect tick) [late].
Proof.
  cbv zeta.
  destruct (ThrottleFacts.throttle_one_bar_per_second noS2N noN2S) as (T1 & _ & T3 & _).
  split.
  - apply T3; [reflexivity|].
    cbn [ticksEvery map seq spaced nowMs connect lastEmitMs Z.of_nat]. lia.
  - apply (T1 connect tick
             (makeBar (tickMessage (JNumber 2500.5%float)) 2500.5%float (dateNow tick))).
    + vm_compute. reflexivity.
    + cbn [nowMs tick]. lia.
Defined.

Lemma single_live_connection_witness :
  readyStateOf (steps noS2N noN2S mounted openedRun) 0 = Some OPEN /\ (0 = 0)%nat.
Proof.
  split; [reflexivity|].
  apply (single_live_connection noS2N noN2S openedRun 0 0 OPEN OPEN); reflexivity.
Defined.

Lemma teardown_closes_and_clears_witness :
  let h := step noS2N noN2S (steps noS2N noN2S mounted openedRun) Unmount in
  noLiveSocket h /\ points (live h) = [] /\ wsRef h = None.
Proof.
  apply (teardown_closes_and_clears noS2N noN2S openedRun Unmount).
  left. reflexivity.
Defined.

Lemma only_current_socket_feeds_buffer_witness :
  wsRef (steps noS2N noN2S mounted openedRun) = Some 0%nat
  /\ readyStateOf (steps noS2N noN2S mounted openedRun) 0 = Some OPEN.
Proof.
  apply (only_current_socket_feeds_buffer noS2N noN2S openedRun 0 tick).
  intros H.
  apply (f_equal (fun h => List.length (points (live h)))) in H.
  vm_compute in H. discriminate.
Defined.

Lemma no_reconnect_after_failure_witness :
  let h := steps noS2N noN2S mounted failedRun in
  let h' := steps noS2N noN2S h [Message 0 tick; SocketOpened 0; Message 0 tick] in
  live h' = live h
  /\ List.length (sockets h') = List.length (sockets h)
  /\ noLiveSocket h'.
Proof.
  apply (no_reconnect_after_failure noS2N noN2S failedRun
           [Message 0 tick; SocketOpened 0; Message 0 tick]).
  - intros i r H. destruct i as [|[|i]]; vm_compute in H; try discriminate.
    injection H as <-. reflexivity.
  - reflexivity.
Defined.


Definition afterTrigger : Coord :=
  effect (propsFor "RELIANCE") 1793591400000 (init (propsFor "RELIANCE")).

Lemma inactive_render_keeps_marker_witness :
  let m := mkMarker "RELIANCE" (key sampleWindow) 1793591400000 in
  let st1 := effect (mkProps "RELIANCE" false (Some sampleWindow)) 1793591410000 afterTrigger in
  let st2 := effect (propsFor "RELIANCE") 1793591430000 st1 in
  backfillError st1 = JNull
  /\ inflight st1 = inflight afterTrigger
  /\ lastBackfillRef st1 = Some m
  /\ inflight st2 = inflight afterTrigger
  /\ lastBackfillRef st2 = Some m.
Proof.
  apply (inactive_render_keeps_marker
           (mkProps "RELIANCE" false (Some sampleWindow)) (propsFor "RELIANCE")
           sampleWindow 1793591410000 1793591430000 afterTrigger
           (mkMarker "RELIANCE" (key sampleWindow) 1793591400000));
    try reflexivity.
  - discriminate.
  - vm_compute. discriminate.
Defined.

Definition busyMinute : list (Props * Z) :=
  [(propsFor "RELIANCE", 1793591400000);
   (mkProps "RELIANCE" false None, 1793591410000);
   (propsFor "RELIANCE", 1793591430000)].

Lemma at_most_one_fetch_per_minute_witness :
  (List.length (inflight (renders (init (propsFor "RELIANCE")) busyMinute))
   <= List.length (inflight (init (propsFor "RELIANCE"))) + 1)%nat.
Proof.
  apply (at_most_one_fetch_per_minute "RELIANCE" (key sampleWindow) 1793591400000).
  intros p t [H|[H|[H|[]]]]; injection H as <- <-; (split; [lia|]); intros A;
    try discriminate; (split; [reflexivity|]); exists sampleWindow; split; reflexivity.
Defined.

End Runs.

Module ConsumerRuns.

Import JSString JSDate Window PriceChart RangeDates ConsumerFacts.
Local Open Scope string_scope.
Local Open Scope Z_scope.

(** Three points: one on 1 November (IST), two on 2 November. *)
Definition samplePoints : list ChartPoint :=
  [mkPoint (Some 1793505000000) 2490%float;
   mkPoint (Some 1793591400000) 2500%float;
   mkPoint (Some 1793591405000) 2500.5%float].

Lemma chart_1d_keeps_last_day_witness :
  let lastPt := mkPoint (Some 1793591405000) 2500.5%float in
  chartData_1d samplePoints
  = filter (fun pt => String.eqb (toLocaleDateString_Kolkata (time pt))
                        (toLocaleDateString_Kolkata (time lastPt))) samplePoints
  /\ exists before, chartData_1d samplePoints = (before ++ [lastPt])%list.
Proof.
  apply (chart_1d_keeps_last_day samplePoints (mkPoint (Some 1793591405000) 2500.5%float)).
  reflexivity.
Defined.

Lemma chart_1d_by_ist_day_witness :
  chartData_1d samplePoints
  = filter (fun pt => match time pt with
                      | Some t => istDay t =? istDay 1793591405000
                      | None => false
                      end) samplePoints.
Proof.
  apply (chart_1d_by_ist_day samplePoints (mkPoint (Some 1793591405000) 2500.5%float)
           1793591405000); [|reflexivity|reflexivity].
  repeat constructor; eexists; (split; [reflexivity|]);
    unfold clock_ok, T_MAX, IST_OFFSET_MS; lia.
Defined.

Example chart_1d_example :
  chartData_1d samplePoints
  = [mkPoint (Some 1793591400000) 2500%float; mkPoint (Some 1793591405000) 2500.5%float].
Proof. vm_compute. reflexivity. Qed.

Lemma range_spans_days_witness :
  let today := MakeDay 2026 10 2 in
  computeRangeDates 2026 10 2 R1d = (dateOfDay (today - daysFor R1d), dateOfDay today)
  /\ dateOfDay today = formatYMD 2026 (10 + 1) 2.
Proof.
  apply (range_spans_days 2026 10 2 R1d); [lia|lia|].
  vm_compute. split; discriminate.
Defined.

Example range_1d_example :
  computeRangeDates 2026 10 2 R1d = ("2026-10-19", "2026-11-02").
Proof. vm_compute. reflexivity. Qed.

End ConsumerRuns.
